(** * d3-force-graph: the data indexer, the interpolation clock, the viewport
      culler and the highlight extractor of [src/index.ts]

    A shallow embedding of the class [D3ForceGraph].

    Modelling conventions.
    - A JavaScript number that holds a count, an array index or a time stamp
      of [Date.now()] is a [nat] or a [Z]; a coordinate is a rational [Q]
      (exact arithmetic: rounding of IEEE doubles and of [Float32Array]
      cells is not modelled).  A division whose divisor is zero, which in
      JavaScript yields [NaN] or an infinity, is reported as the outcome
      [DivisionByZero].
    - A plain object used as a dictionary is the finite map of its own
      properties ([gmap]); members inherited from [Object.prototype] are not
      modelled, so ids are taken not to be names such as ["constructor"].
      Where the enumeration order of the keys is observed ([Object.keys]),
      the object is the list of its own properties in insertion order and
      [Object_keys] lists canonical array indices first, in ascending
      numeric order, then the other keys in insertion order.
    - [Array.prototype.sort] is a stable sort (ECMAScript 2019).
    - Rendering primitives of three.js are outside the model, except the
      list of the scene's children with their names. *)

From Stdlib Require Import ZArith QArith Lqa Lia List String Ascii.
From stdpp Require Import gmap strings list sorting.

(** ** Input and indexed data *)

Definition RGBA : Type := (Q * Q * Q * Q)%type.

Record RawNode := {
  node_id : string;
  node_name : option string;
  node_scale : option Q;
  node_image : option string
}.

Record RawLink := {
  source : string;
  target : string;
  color : option RGBA
}.

Record GraphData := {
  data_nodes : list RawNode;
  data_links : list RawLink
}.

Record D3Link := {
  link_source : string;
  link_target : string
}.

Record NodeInfo := {
  index : nat;
  scale : option Q;
  image : option string;
  name : option string
}.

Record LinkInfo := {
  info_color : option RGBA
}.

Record StatEntry := {
  stat_source : string;
  count : nat
}.

(** [nodes] holds the [id] of each [{id}] object of [result.nodes]. *)
Record ProcessedData := {
  nodes : list string;
  links : list D3Link;
  nodeInfoMap : gmap string NodeInfo;
  linkInfoMap : gmap string LinkInfo;
  linkBuffer : list Z;
  statTable : list StatEntry
}.

(** ** Objects whose key order is observed *)

Definition JsObj (V : Type) : Type := list (string * V).

Fixpoint obj_get {V} (o : JsObj V) (k : string) : option V :=
  match o with
  | [] => None
  | (k', v) :: o' => if String.eqb k k' then Some v else obj_get o' k
  end.

(** [o[k] = v]: an existing property keeps its place, a new one goes last. *)
Fixpoint obj_set {V} (k : string) (v : V) (o : JsObj V) : JsObj V :=
  match o with
  | [] => [(k, v)]
  | (k', v') :: o' =>
      if String.eqb k k' then (k, v) :: o' else (k', v') :: obj_set k v o'
  end.

Definition digit_of (c : ascii) : option N :=
  let n := N_of_ascii c in
  if ((48 <=? n) && (n <=? 57))%N then Some (n - 48)%N else None.

Fixpoint parse_digits (acc : N) (s : string) : option N :=
  match s with
  | EmptyString => Some acc
  | String c s' =>
      match digit_of c with
      | Some d => parse_digits (10 * acc + d)%N s'
      | None => None
      end
  end.

(** A canonical array index: the decimal numeral, without leading zero, of
    an integer below [2^32 - 1]. *)
Definition array_index (s : string) : option N :=
  match s with
  | EmptyString => None
  | String c s' =>
      if Ascii.eqb c "0"%char && negb (String.eqb s' EmptyString) then None
      else match parse_digits 0 s with
           | Some n => if (n <? 4294967295)%N then Some n else None
           | None => None
           end
  end.

Definition is_array_index (s : string) : bool :=
  match array_index s with Some _ => true | None => false end.

Fixpoint insert_index (x : N * string) (l : list (N * string)) : list (N * string) :=
  match l with
  | [] => [x]
  | y :: l' => if (fst x <=? fst y)%N then x :: l else y :: insert_index x l'
  end.

Definition index_keys (ks : list string) : list (N * string) :=
  omap (fun k => match array_index k with Some n => Some (n, k) | None => None end) ks.

(** The order in which own keys created in the order [ks] are enumerated. *)
Definition enumeration_order (ks : list string) : list string :=
  map snd (fold_right insert_index [] (index_keys ks))
    ++ filter (fun k => is_array_index k = false) ks.

(** [Object.keys(o)]. *)
Definition Object_keys {V} (o : JsObj V) : list string :=
  enumeration_order (map fst o).

(** ** [Array.prototype.sort] with a comparator *)

Section Sort.

Context {A : Type} (cmp : A -> A -> Z).

(** [x] goes before the first element that the comparator does not put
    before it. *)
Fixpoint sort_insert (x : A) (l : list A) : list A :=
  match l with
  | [] => [x]
  | y :: l' => if (cmp x y <=? 0)%Z then x :: l else y :: sort_insert x l'
  end.

Definition js_sort (l : list A) : list A := fold_right sort_insert [] l.

End Sort.

(** ** [Int32Array] *)

Definition to_int32 (z : Z) : Z := ((z + 2147483648) mod 4294967296 - 2147483648)%Z.

Definition Int32Array (l : list nat) : list Z := map (fun n => to_int32 (Z.of_nat n)) l.

(** ** [preProcessData] *)

Record NodeLoop := {
  nl_nodes : list string;
  nl_nodeInfoMap : gmap string NodeInfo;
  nodeCount : nat
}.

Definition node_step (st : NodeLoop) (e : RawNode) : NodeLoop :=
  match nl_nodeInfoMap st !! node_id e with
  | Some _ => st
  | None =>
      {| nl_nodes := nl_nodes st ++ [node_id e];
         nl_nodeInfoMap :=
           <[node_id e := {| index := nodeCount st;
                             scale := node_scale e;
                             image := node_image e;
                             name := node_name e |}]> (nl_nodeInfoMap st);
         nodeCount := S (nodeCount st) |}
  end.

Definition node_loop (ns : list RawNode) : NodeLoop :=
  fold_left node_step ns {| nl_nodes := []; nl_nodeInfoMap := ∅; nodeCount := 0 |}.

Record LinkLoop := {
  ll_links : list D3Link;
  ll_linkInfoMap : gmap string LinkInfo;
  ll_linkBuffer : list nat;
  linkCountMap : JsObj nat;
  linkCount : nat
}.

Definition linkInfoKey (s t : string) : string := s +:+ "-" +:+ t.

(** [linkCountMap[k] = (linkCountMap[k] || 0) + 1]. *)
Definition bump (cm : JsObj nat) (k : string) : JsObj nat :=
  obj_set k (default 0 (obj_get cm k) + 1) cm.

(** One turn of the loop over [data.links]; [None] is the [TypeError] of
    reading [.index] of [undefined]. *)
Definition link_step (nim : gmap string NodeInfo) (st : LinkLoop) (e : RawLink)
  : option LinkLoop :=
  match ll_linkInfoMap st !! linkInfoKey (source e) (target e) with
  | Some _ => Some st
  | None =>
      match nim !! source e, nim !! target e with
      | Some si, Some ti =>
          Some {| ll_links := ll_links st
                    ++ [{| link_source := source e; link_target := target e |}];
                  ll_linkInfoMap :=
                    <[linkInfoKey (source e) (target e) := {| info_color := color e |}]>
                      (ll_linkInfoMap st);
                  ll_linkBuffer := ll_linkBuffer st ++ [index si; index ti];
                  linkCountMap := bump (linkCountMap st) (source e);
                  linkCount := S (linkCount st) |}
      | _, _ => None
      end
  end.

Fixpoint link_loop (nim : gmap string NodeInfo) (es : list RawLink) (st : LinkLoop)
  : option LinkLoop :=
  match es with
  | [] => Some st
  | e :: es' =>
      match link_step nim st e with
      | Some st' => link_loop nim es' st'
      | None => None
      end
  end.

Definition link_loop_init : LinkLoop :=
  {| ll_links := []; ll_linkInfoMap := ∅; ll_linkBuffer := [];
     linkCountMap := []; linkCount := 0 |}.

Definition stat_cmp (a b : StatEntry) : Z := (Z.of_nat (count b) - Z.of_nat (count a))%Z.

Definition stat_entries (cm : JsObj nat) : list StatEntry :=
  map (fun e => {| stat_source := e; count := default 0 (obj_get cm e) |})
      (Object_keys cm).

Definition preProcessData (d : GraphData) : option ProcessedData :=
  let ns := node_loop (data_nodes d) in
  match link_loop (nl_nodeInfoMap ns) (data_links d) link_loop_init with
  | None => None
  | Some ls =>
      Some {| nodes := nl_nodes ns;
              links := ll_links ls;
              nodeInfoMap := nl_nodeInfoMap ns;
              linkInfoMap := ll_linkInfoMap ls;
              linkBuffer := Int32Array (ll_linkBuffer ls);
              statTable := take 20 (js_sort stat_cmp (stat_entries (linkCountMap ls))) |}
  end.

(** ** The graph object *)

Record Camera := {
  cam_x : Q;
  cam_y : Q;
  cam_z : Q;
  aspect : Q
}.

(** The fields [layoutPastTime], [layoutProgress] and [layoutStartTime], which
    only feed the display, are left out. *)
Record GraphPerfInfo := {
  nodeCounts : nat;
  linkCounts : nat;
  prevTickTime : Z;
  targetTick : Z;
  intervalTime : Z;
  layouting : bool
}.

Record ViewportRect := {
  left : Q;
  right : Q;
  top : Q;
  bottom : Q
}.

Record VisibleNode := {
  vis_id : string;
  vis_x : Q;
  vis_y : Q
}.

(** A child of the scene: its [name], the id it was built for, and the node
    ids and links its geometry was filled from. *)
Record SceneObject := {
  obj_name : string;
  obj_center : string;
  obj_nodes : list string;
  obj_links : list D3Link
}.

(** A position buffer that is [undefined] is [None].  [current_is_target]
    holds when [currentPositionStatus] and [targetPositionStatus] are one
    and the same array (after [this.currentPositionStatus =
    this.targetPositionStatus]), so that a write through one is seen
    through the other.  [rafId] holds when a frame callback is pending. *)
Record Graph := {
  processedData : ProcessedData;
  perfInfo : GraphPerfInfo;
  camera : Camera;
  targetPositionStatus : option (list Q);
  currentPositionStatus : option (list Q);
  cachePositionStatus : option (list Q);
  current_is_target : bool;
  rafId : bool;
  highlighted : option string;
  scene : list SceneObject
}.

Definition GRAPH_DEFAULT_PERF_INFO : GraphPerfInfo :=
  {| nodeCounts := 0; linkCounts := 0; prevTickTime := 0; targetTick := 0;
     intervalTime := 0; layouting := false |}.

Definition set_perfInfo (p : GraphPerfInfo) (g : Graph) : Graph :=
  {| processedData := processedData g; perfInfo := p; camera := camera g;
     targetPositionStatus := targetPositionStatus g;
     currentPositionStatus := currentPositionStatus g;
     cachePositionStatus := cachePositionStatus g;
     current_is_target := current_is_target g; rafId := rafId g;
     highlighted := highlighted g; scene := scene g |}.

Definition set_camera (c : Camera) (g : Graph) : Graph :=
  {| processedData := processedData g; perfInfo := perfInfo g; camera := c;
     targetPositionStatus := targetPositionStatus g;
     currentPositionStatus := currentPositionStatus g;
     cachePositionStatus := cachePositionStatus g;
     current_is_target := current_is_target g; rafId := rafId g;
     highlighted := highlighted g; scene := scene g |}.

(** [tgt], [cur], [cache] and the aliasing flag at once. *)
Definition set_positions (tgt cur cache : option (list Q)) (alias : bool) (g : Graph)
  : Graph :=
  {| processedData := processedData g; perfInfo := perfInfo g; camera := camera g;
     targetPositionStatus := tgt;
     currentPositionStatus := cur;
     cachePositionStatus := cache;
     current_is_target := alias; rafId := rafId g;
     highlighted := highlighted g; scene := scene g |}.

Definition set_rafId (r : bool) (g : Graph) : Graph :=
  {| processedData := processedData g; perfInfo := perfInfo g; camera := camera g;
     targetPositionStatus := targetPositionStatus g;
     currentPositionStatus := currentPositionStatus g;
     cachePositionStatus := cachePositionStatus g;
     current_is_target := current_is_target g; rafId := r;
     highlighted := highlighted g; scene := scene g |}.

Definition set_highlight (h : option string) (sc : list SceneObject) (g : Graph) : Graph :=
  {| processedData := processedData g; perfInfo := perfInfo g; camera := camera g;
     targetPositionStatus := targetPositionStatus g;
     currentPositionStatus := currentPositionStatus g;
     cachePositionStatus := cachePositionStatus g;
     current_is_target := current_is_target g; rafId := rafId g;
     highlighted := h; scene := sc |}.

(** What a call comes to: a value, a [TypeError] (a property of [undefined]
    is read), arithmetic on an [undefined] operand, or a division by zero. *)
Inductive outcome (A : Type) : Type :=
  | Done (a : A)
  | TypeError
  | UndefinedOperand
  | DivisionByZero.
Arguments Done {A} a.
Arguments TypeError {A}.
Arguments UndefinedOperand {A}.
Arguments DivisionByZero {A}.

Definition bind {A B} (o : outcome A) (k : A -> outcome B) : outcome B :=
  match o with
  | Done a => k a
  | TypeError => TypeError
  | UndefinedOperand => UndefinedOperand
  | DivisionByZero => DivisionByZero
  end.

Definition Qltb (a b : Q) : bool := negb (Qle_bool b a).

(** ** The message handler of [start] *)

(** [startRender] and [stopRender]. *)
Definition startRender (g : Graph) : Graph :=
  if rafId g then g else set_rafId true g.

Definition stopRender (g : Graph) : Graph :=
  if rafId g then set_rafId false g else g.

(** The loop [cachePositionStatus[i] = currentPositionStatus[i]] over the
    length of [cur]; a typed array does not grow. *)
Definition copy_into (cache cur : list Q) : list Q :=
  take (length cache) cur ++ drop (length cur) cache.

(** A message [tick] with [currentTick = tick] and positions [snapshot],
    handled when [Date.now()] is [now]. *)
Definition on_tick (now : Z) (tick : Z) (snapshot : list Q) (g : Graph) : Graph :=
  let p := perfInfo g in
  let interval := (now - (if (prevTickTime p =? 0)%Z then now else prevTickTime p))%Z in
  let p1 := {| nodeCounts := nodeCounts p; linkCounts := linkCounts p;
               prevTickTime := now; targetTick := targetTick p;
               intervalTime := interval; layouting := true |} in
  if (tick =? 1)%Z then
    set_positions (Some snapshot) (currentPositionStatus g) (cachePositionStatus g)
      false (set_perfInfo p1 g)
  else
    let g1 :=
      if (tick =? 2)%Z then
        startRender
          (set_positions (targetPositionStatus g) (targetPositionStatus g)
             (cachePositionStatus g) true (set_perfInfo p1 g))
      else set_perfInfo p1 g in
    let cache :=
      match currentPositionStatus g1 with
      | Some cur =>
          Some (copy_into
                  (match cachePositionStatus g1 with
                   | Some c => c
                   | None => repeat 0%Q (length cur)
                   end) cur)
      | None => cachePositionStatus g1
      end in
    set_perfInfo
      {| nodeCounts := nodeCounts p; linkCounts := linkCounts p;
         prevTickTime := now; targetTick := tick;
         intervalTime := interval; layouting := true |}
      (set_positions (Some snapshot) (currentPositionStatus g1) cache false g1).

(** A message [end]; the two timers it arms are [layout_finished] and
    [idle_stop]. *)
Definition on_end (snapshot : list Q) (g : Graph) : Graph :=
  set_positions (Some snapshot) (currentPositionStatus g) (cachePositionStatus g)
    false g.

Definition layout_finished (g : Graph) : Graph :=
  let p := perfInfo g in
  set_perfInfo
    {| nodeCounts := nodeCounts p; linkCounts := linkCounts p;
       prevTickTime := prevTickTime p; targetTick := targetTick p;
       intervalTime := intervalTime p; layouting := false |} g.

(** ** [render] *)

Definition set_z (z : Q) (c : Camera) : Camera :=
  {| cam_x := cam_x c; cam_y := cam_y c; cam_z := z; aspect := aspect c |}.

(** The two tests at the head of [render]. *)
Definition clamp_camera (c : Camera) : Camera :=
  let c1 := if Qltb (cam_z c) 75 then set_z 75 c else c in
  if Qltb 16000 (cam_z c1) then set_z 16000 c1 else c1.

(** The right-hand side of the assignment in the interpolation loop. *)
Definition blend (tgt cache : Q) (interval stepTime : Z) : Q :=
  ((tgt - cache) / inject_Z interval * inject_Z stepTime + cache)%Q.

(** The loop over [i < currentPositionStatus.length], from index [i] on;
    [cur] is what is left of [currentPositionStatus]. *)
Fixpoint blend_loop (i : nat) (cur tgt cache : list Q) (interval stepTime : Z)
  : outcome (list Q) :=
  match cur with
  | [] => Done []
  | _ :: cur' =>
      if (interval =? 0)%Z then DivisionByZero
      else
        match tgt !! i, cache !! i with
        | Some t, Some c =>
            bind (blend_loop (S i) cur' tgt cache interval stepTime)
                 (fun rest => Done (blend t c interval stepTime :: rest))
        | _, _ => UndefinedOperand
        end
  end.

(** [currentPositionStatus[0] !== targetPositionStatus[0]]; [undefined]
    differs from every number and equals itself. *)
Definition first_differs (cur tgt : list Q) : bool :=
  match cur !! 0, tgt !! 0 with
  | Some a, Some b => negb (Qeq_bool a b)
  | None, None => false
  | _, _ => true
  end.

(** The first test of the branch taken when [nodeCounts > 1000], with the
    interpolation loop. *)
Definition interpolate (now : Z) (g : Graph) : outcome Graph :=
  let p := perfInfo g in
  let stepTime := (now - prevTickTime p)%Z in
  if (stepTime <=? intervalTime p)%Z then
    match currentPositionStatus g, targetPositionStatus g, cachePositionStatus g with
    | Some cur, Some tgt, Some cache =>
        bind (blend_loop 0 cur tgt cache (intervalTime p) stepTime)
             (fun cur' =>
                Done (set_positions
                        (if current_is_target g then Some cur' else Some tgt)
                        (Some cur') (Some cache) (current_is_target g) g))
    | Some [], _, _ => Done g
    | _, _, _ => TypeError
    end
  else Done g.

(** The second test of that branch: once the layout has ended, the rendered
    buffer is set to the target if their first cells differ. *)
Definition snap_when_finished (g : Graph) : outcome Graph :=
  if layouting (perfInfo g) then Done g
  else
    match currentPositionStatus g, targetPositionStatus g with
    | Some cur, Some tgt =>
        if first_differs cur tgt then
          Done (set_positions (Some tgt) (Some tgt) (cachePositionStatus g) true g)
        else Done g
    | _, _ => TypeError
    end.

(** The branch taken when [nodeCounts > 1000]. *)
Definition render_blend (now : Z) (g : Graph) : outcome Graph :=
  bind (interpolate now g) snap_when_finished.

(** The branch taken otherwise; [updatePosition] reads its argument as
    soon as there is a node or a link. *)
Definition render_direct (g : Graph) : outcome Graph :=
  match targetPositionStatus g, nodeCounts (perfInfo g), linkCounts (perfInfo g) with
  | None, S _, _ => TypeError
  | None, O, S _ => TypeError
  | _, _, _ =>
      Done (set_positions (targetPositionStatus g) (targetPositionStatus g)
              (cachePositionStatus g) true g)
  end.

(** What [renderer.render] is given. *)
Record Frame := {
  frame_camera : Camera;
  frame_positions : option (list Q)
}.

(** The head of [render]: the handle is cleared and the camera clamped. *)
Definition begin_frame (g : Graph) : Graph :=
  set_camera (clamp_camera (camera g)) (set_rafId false g).

(** The tail of [render]: the scene is drawn, the controls are updated and
    the next frame is requested.  [controls_update] is what
    [this.controls.update()] does to the camera.  The calls of
    [updateHighLight] and [loadImage] act on the scene, and are left out. *)
Definition finish_frame (controls_update : Camera -> Camera) (g1 : Graph)
  : outcome (Graph * Frame) :=
  let frame := {| frame_camera := camera g1;
                  frame_positions := currentPositionStatus g1 |} in
  Done (startRender (set_camera (controls_update (camera g1)) g1), frame).

(** One frame at time [now]. *)
Definition render (controls_update : Camera -> Camera) (now : Z) (g : Graph)
  : outcome (Graph * Frame) :=
  let g0 := begin_frame g in
  bind
    (if 1000 <? nodeCounts (perfInfo g0) then render_blend now g0
     else render_direct g0)
    (finish_frame controls_update).

(** ** The viewport culler *)

(** [tan_half_fov] is the value of [Math.tan(Math.PI / 180 * 22.5)]. *)
Definition getViewPortRect (tan_half_fov : Q) (g : Graph) : ViewportRect :=
  let offsetY := (cam_z (camera g) * tan_half_fov)%Q in
  let offsetX := (offsetY * aspect (camera g))%Q in
  {| left := (cam_x (camera g) - offsetX)%Q;
     right := (cam_x (camera g) + offsetX)%Q;
     top := (cam_y (camera g) + offsetY)%Q;
     bottom := (cam_y (camera g) - offsetY)%Q |}.

(** The test of the loop of [getAllVisibleNodes]; a comparison with
    [undefined] is false. *)
Definition in_rect (r : ViewportRect) (x y : option Q) : bool :=
  match x, y with
  | Some x, Some y =>
      Qle_bool (left r) x && Qle_bool x (right r)
      && Qle_bool (bottom r) y && Qle_bool y (top r)
  | _, _ => false
  end.

(** The loop of [getAllVisibleNodes] over [i, i + 1, ..., i + n - 1]. *)
Fixpoint visible_from (r : ViewportRect) (ids : list string) (tgt : list Q)
    (i n : nat) : outcome (list VisibleNode) :=
  match n with
  | O => Done []
  | S n' =>
      if in_rect r (tgt !! (i * 2)) (tgt !! (i * 2 + 1)) then
        match ids !! i, tgt !! (i * 2), tgt !! (i * 2 + 1) with
        | Some k, Some x, Some y =>
            bind (visible_from r ids tgt (S i) n')
                 (fun rest => Done ({| vis_id := k; vis_x := x; vis_y := y |} :: rest))
        | _, _, _ => TypeError
        end
      else visible_from r ids tgt (S i) n'
  end.

Definition getAllVisibleNodes (tan_half_fov : Q) (g : Graph)
  : outcome (list VisibleNode) :=
  let viewportRect := getViewPortRect tan_half_fov g in
  match nodeCounts (perfInfo g), targetPositionStatus g with
  | O, _ => Done []
  | _, None => TypeError
  | n, Some tgt => visible_from viewportRect (nodes (processedData g)) tgt 0 n
  end.

(** ** Highlighting *)

(** [scene.remove(scene.getObjectByName(n))]: the first child of that name
    goes, and nothing happens when there is none. *)
Fixpoint remove_by_name (n : string) (sc : list SceneObject) : list SceneObject :=
  match sc with
  | [] => []
  | o :: sc' => if String.eqb (obj_name o) n then sc' else o :: remove_by_name n sc'
  end.

Definition unhighlight (g : Graph) : Graph :=
  set_highlight None
    (remove_by_name "hlArrows"
       (remove_by_name "hlText"
          (remove_by_name "hlLines"
             (remove_by_name "hlNodes" (scene g))))) g.

Definition touches (sourceId : string) (e : D3Link) : bool :=
  String.eqb (link_source e) sourceId || String.eqb (link_target e) sourceId.

(** [None] when some id of [ids] has no entry. *)
Definition all_indexed (nim : gmap string NodeInfo) (ids : list string) : bool :=
  forallb (fun e => match nim !! e with Some _ => true | None => false end) ids.

Definition addHighLight (sourceId : string) (g : Graph) : outcome Graph :=
  let pd := processedData g in
  match find (fun e => String.eqb e sourceId) (nodes pd) with
  | None => TypeError
  | Some sourceNode =>
      let hl_links := filter (fun e => touches sourceId e = true) (links pd) in
      let targetNodes :=
        map (fun e => if String.eqb (link_target e) sourceNode
                      then link_source e else link_target e) hl_links
          ++ [sourceNode] in
      match currentPositionStatus g with
      | None => TypeError
      | Some _ =>
          if all_indexed (nodeInfoMap pd) targetNodes then
            Done (set_highlight (highlighted g)
                    (scene g ++
                       [ {| obj_name := "hlNodes"; obj_center := sourceId;
                            obj_nodes := targetNodes; obj_links := [] |};
                         {| obj_name := "hlLine"; obj_center := sourceId;
                            obj_nodes := []; obj_links := hl_links |};
                         {| obj_name := "hlArrow"; obj_center := sourceId;
                            obj_nodes := []; obj_links := hl_links |};
                         {| obj_name := "hlText"; obj_center := sourceId;
                            obj_nodes := [sourceId]; obj_links := [] |} ]) g)
          else TypeError
      end
  end.

Definition highlight (i : string) (g : Graph) : outcome Graph :=
  if decide (highlighted g = Some i) then Done g
  else bind (addHighLight i g)
            (fun g1 => Done (set_highlight (Some i) (scene g1) g1)).

(** ** The words of the specification *)

(** The ids of [l], each at its first occurrence. *)
Fixpoint first_seen (l : list string) : list string :=
  match l with
  | [] => []
  | x :: l' => x :: filter (fun y => y <> x) (first_seen l')
  end.

(** The invariant of the loop over [data.nodes]. *)
Definition node_inv (st : NodeLoop) : Prop :=
  nodeCount st = length (nl_nodes st)
  /\ NoDup (nl_nodes st)
  /\ forall k i, nl_nodes st !! i = Some k
       <-> exists info, nl_nodeInfoMap st !! k = Some info /\ index info = i.


(** The links of [l], each at the first occurrence of its key, and each at
    the first occurrence of its pair of endpoints. *)
Definition key_of (e : RawLink) : string := linkInfoKey (source e) (target e).

(** The pair of endpoints of a link. *)
Definition to_d3 (e : RawLink) : D3Link :=
  {| link_source := source e; link_target := target e |}.

Global Instance D3Link_eq_dec : EqDecision D3Link.
Proof. solve_decision. Defined.

Fixpoint first_by_key (l : list RawLink) : list RawLink :=
  match l with
  | [] => []
  | e :: l' => e :: filter (fun e' => key_of e' <> key_of e) (first_by_key l')
  end.













(** Sample states.  The indexed data plays no part in [render]. *)
Definition no_data : ProcessedData :=
  {| nodes := []; links := []; nodeInfoMap := ∅; linkInfoMap := ∅;
     linkBuffer := []; statTable := [] |}.

Definition fresh_graph (n : nat) (z : Q) : Graph :=
  {| processedData := no_data;
     perfInfo := {| nodeCounts := n; linkCounts := 0; prevTickTime := 0;
                    targetTick := 0; intervalTime := 0; layouting := false |};
     camera := {| cam_x := 0; cam_y := 0; cam_z := z; aspect := 1 |};
     targetPositionStatus := None;
     currentPositionStatus := None;
     cachePositionStatus := None;
     current_is_target := false;
     rafId := false;
     highlighted := None;
     scene := [] |}.

(** 1001 nodes; the first two ticks arrive in the same millisecond. *)
Definition same_millisecond_graph : Graph :=
  on_tick 5000 2 (repeat 10%Q 2002)
    (on_tick 5000 1 (repeat 0%Q 2002) (fresh_graph 1001 500)).

(** 1000 nodes; two ticks 10 ms apart. *)
Definition threshold_graph : Graph :=
  on_tick 1010 2 (repeat 10%Q 2000)
    (on_tick 1000 1 (repeat 0%Q 2000) (fresh_graph 1000 500)).

(** 1001 nodes; two ticks 10 ms apart. *)
Definition large_graph : Graph :=
  on_tick 1010 2 (repeat 10%Q 2002)
    (on_tick 1000 1 (repeat 0%Q 2002) (fresh_graph 1001 20000)).

(** Three nodes on a line, the camera above the middle one; with a tangent
    of 1/2 and a z of 20 the rectangle reaches from -10 to 10. *)
Definition culling_graph : Graph :=
  {| processedData :=
       {| nodes := ["a"; "b"; "c"]; links := []; nodeInfoMap := ∅;
          linkInfoMap := ∅; linkBuffer := []; statTable := [] |};
     perfInfo := {| nodeCounts := 3; linkCounts := 0; prevTickTime := 0;
                    targetTick := 0; intervalTime := 0; layouting := false |};
     camera := {| cam_x := 0; cam_y := 0; cam_z := 20; aspect := 1 |};
     targetPositionStatus := Some [10; 0; 0; -10; 10 + (1 # 1000); 0]%Q;
     currentPositionStatus := Some [500; 500; 500; 500; 0; 0]%Q;
     cachePositionStatus := None;
     current_is_target := false;
     rafId := false;
     highlighted := None;
     scene := [] |}.

(** Sample inputs. *)
Definition mkNode (i : string) : RawNode :=
  {| node_id := i; node_name := None; node_scale := None; node_image := None |}.

Definition mkLink (s t : string) (c : option RGBA) : RawLink :=
  {| source := s; target := t; color := c |}.

Definition red : RGBA := (255, 0, 0, 1)%Q.
Definition blue : RGBA := (0, 0, 255, 1)%Q.

Definition scenario_graph : GraphData :=
  {| data_nodes := map mkNode ["a"; "b"; "c"];
     data_links := [mkLink "a" "b" (Some red); mkLink "a" "b" (Some blue);
                    mkLink "a" "c" None] |}.



Definition dangling_graph : GraphData :=
  {| data_nodes := map mkNode ["a"; "b"];
     data_links := [mkLink "a" "b" None; mkLink "a" "z" None] |}.

(** The name and the center of each child of the scene. *)
Definition scene_summary (g : Graph) : list (string * string) :=
  map (fun o => (obj_name o, obj_center o)) (scene g).

(** The children of the scene that a highlight has added. *)
Definition highlight_objects (g : Graph) : list SceneObject :=
  filter (fun o => String.prefix "hl" (obj_name o) = true) (scene g).

(** A link one of whose endpoints is the id of no node. *)
Definition dangling (nim : gmap string NodeInfo) (e : RawLink) : Prop :=
  nim !! source e = None \/ nim !! target e = None.

(** The links that the loop started in a state with the map [m] retains. *)
Definition accepted (m : gmap string LinkInfo) (es : list RawLink) : list RawLink :=
  filter (fun e => m !! key_of e = None) (first_by_key es).

Definition resolved (nim : gmap string NodeInfo) (k : string) : nat :=
  match nim !! k with Some info => index info | None => 0 end.

(** The graph a -> b -> c once laid out, with nothing highlighted. *)
Definition hover_graph : Graph :=
  {| processedData :=
       default no_data
         (preProcessData
            {| data_nodes := map mkNode ["a"; "b"; "c"];
               data_links := [mkLink "a" "b" None; mkLink "b" "c" None] |});
     perfInfo := {| nodeCounts := 3; linkCounts := 2; prevTickTime := 0;
                    targetTick := 0; intervalTime := 0; layouting := false |};
     camera := {| cam_x := 0; cam_y := 0; cam_z := 100; aspect := 1 |};
     targetPositionStatus := Some [0; 0; 10; 0; 20; 0]%Q;
     currentPositionStatus := Some [0; 0; 10; 0; 20; 0]%Q;
     cachePositionStatus := None;
     current_is_target := true;
     rafId := true;
     highlighted := None;
     scene := [ {| obj_name := "basePoints"; obj_center := ""; obj_nodes := [];
                   obj_links := [] |};
                {| obj_name := "baseLines"; obj_center := ""; obj_nodes := [];
                   obj_links := [] |} ] |}.


(** 1001 nodes and ticks 5 s apart; the layout has ended with the final
    snapshot, and its first timer has run. *)
Definition slow_graph : Graph :=
  layout_finished
    (on_end (repeat 30%Q 2002)
       (on_tick 6000 2 (repeat 10%Q 2002)
          (on_tick 1000 1 (repeat 0%Q 2002) (fresh_graph 1001 500)))).

(** The names [unhighlight] looks for. *)
Definition unhighlight_names : list string :=
  ["hlNodes"; "hlLines"; "hlText"; "hlArrows"].

(** The camera of [g] moved to the height [z]. *)
Definition zoom_to (z : Q) (g : Graph) : Graph := set_camera (set_z z (camera g)) g.

(** How many children of the scene have the name [n]. *)
Definition count_named (n : string) (sc : list SceneObject) : nat :=
  length (filter (fun s => s = n) (map obj_name sc)).

(** The data of [hover_graph]. *)
Definition hover_data : GraphData :=
  {| data_nodes := map mkNode ["a"; "b"; "c"];
     data_links := [mkLink "a" "b" None; mkLink "b" "c" None] |}.

(** ** The buffers of the base meshes *)

(** The [Float32Array]s of [this.nodes] and [this.lines].  A cell holds a
    number; [None] is [NaN], which is what a write of [undefined] stores.
    A write past the end of a typed array is ignored, as [<[i:=v]>] is. *)
Record Meshes := {
  nodes_positions : list (option Q);
  nodes_scale : list (option Q);
  lines_positions : list (option Q);
  lines_colors : list (option Q)
}.

(** [scale || 1]. *)
Definition scale_or_1 (s : option Q) : Q :=
  match s with
  | Some s => if Qeq_bool s 0 then 1%Q else s
  | None => 1%Q
  end.

(** The first three components of [color], or white. *)
Definition rgb_or_white (c : option RGBA) : Q * Q * Q :=
  match c with
  | Some (r, g, b, _) => (r, g, b)
  | None => (1%Q, 1%Q, 1%Q)
  end.

(** The loop of [prepareBasicMesh] over [processedData.nodes], from the
    index [i] on. *)
Fixpoint park_nodes (nim : gmap string NodeInfo) (ids : list string) (i : nat)
    (positions scl : list (option Q))
  : outcome (list (option Q) * list (option Q)) :=
  match ids with
  | [] => Done (positions, scl)
  | e :: ids' =>
      let positions1 :=
        <[i * 3 + 2 := Some 0%Q]>
          (<[i * 3 + 1 := Some (-9999)%Q]>
             (<[i * 3 := Some (-9999)%Q]> positions)) in
      match nim !! e with
      | None => TypeError
      | Some info =>
          park_nodes nim ids' (S i) positions1
            (<[i := Some (scale_or_1 (scale info))]> scl)
      end
  end.

(** The loop of [prepareBasicMesh] over [processedData.links], from the
    index [i] on. *)
Fixpoint park_lines (lim : gmap string LinkInfo) (ls : list D3Link) (i : nat)
    (positions colors : list (option Q))
  : outcome (list (option Q) * list (option Q)) :=
  match ls with
  | [] => Done (positions, colors)
  | e :: ls' =>
      let positions1 :=
        <[i * 6 + 5 := Some (-(1 # 10))%Q]>
          (<[i * 6 + 4 := Some (-9999)%Q]>
             (<[i * 6 + 3 := Some (-9999)%Q]>
                (<[i * 6 + 2 := Some (-(1 # 10))%Q]>
                   (<[i * 6 + 1 := Some (-9999)%Q]>
                      (<[i * 6 := Some (-9999)%Q]> positions))))) in
      match lim !! linkInfoKey (link_source e) (link_target e) with
      | None => TypeError
      | Some info =>
          let '(r, g, b) := rgb_or_white (info_color info) in
          park_lines lim ls' (S i) positions1
            (<[i * 6 + 5 := Some b]>
               (<[i * 6 + 4 := Some g]>
                  (<[i * 6 + 3 := Some r]>
                     (<[i * 6 + 2 := Some b]>
                        (<[i * 6 + 1 := Some g]>
                           (<[i * 6 := Some r]> colors))))))
      end
  end.

Definition basePoints : SceneObject :=
  {| obj_name := "basePoints"; obj_center := ""; obj_nodes := []; obj_links := [] |}.

Definition baseLines : SceneObject :=
  {| obj_name := "baseLines"; obj_center := ""; obj_nodes := []; obj_links := [] |}.

Definition prepareBasicMesh (g : Graph) : outcome (Graph * Meshes) :=
  let pd := processedData g in
  let n := nodeCounts (perfInfo g) in
  let m := linkCounts (perfInfo g) in
  bind (park_nodes (nodeInfoMap pd) (nodes pd) 0
          (repeat (Some 0%Q) (n * 3)) (repeat (Some 0%Q) n))
    (fun ps =>
       bind (park_lines (linkInfoMap pd) (links pd) 0
               (repeat (Some 0%Q) (m * 6)) (repeat (Some 0%Q) (m * 6)))
         (fun lc =>
            Done (set_highlight (highlighted g)
                    (scene g ++ [basePoints; baseLines]) g,
                  {| nodes_positions := fst ps; nodes_scale := snd ps;
                     lines_positions := fst lc; lines_colors := snd lc |}))).

(** The constructor and [init].  Every instance takes the one object
    [GRAPH_DEFAULT_PERF_INFO] as its [perfInfo] and writes its counts into
    it; [shared] is what that object holds when the constructor runs, and
    [perfInfo] of the result is what it holds afterwards.  [cam] is the
    camera that [prepareScene] builds. *)
Definition init (d : GraphData) (cam : Camera) (shared : GraphPerfInfo)
  : outcome (Graph * Meshes) :=
  match preProcessData d with
  | None => TypeError
  | Some pd =>
      prepareBasicMesh
        {| processedData := pd;
           perfInfo := {| nodeCounts := length (nodes pd);
                          linkCounts := length (links pd);
                          prevTickTime := prevTickTime shared;
                          targetTick := targetTick shared;
                          intervalTime := intervalTime shared;
                          layouting := layouting shared |};
           camera := cam;
           targetPositionStatus := None;
           currentPositionStatus := None;
           cachePositionStatus := None;
           current_is_target := false;
           rafId := false;
           highlighted := None;
           scene := [] |}
  end.

(** A method of [g] run when the shared [perfInfo] object holds [shared]. *)
Definition with_shared (shared : GraphPerfInfo) (g : Graph) : Graph :=
  set_perfInfo shared g.

(** The first loop of [updatePosition], over [i, i + 1, ..., i + n - 1]. *)
Fixpoint update_nodes (nodesPosition : list Q) (i n : nat)
    (positions : list (option Q)) : list (option Q) :=
  match n with
  | O => positions
  | S n' =>
      update_nodes nodesPosition (S i) n'
        (<[i * 3 + 1 := nodesPosition !! (i * 2 + 1)]>
           (<[i * 3 := nodesPosition !! (i * 2)]> positions))
  end.

(** The second loop of [updatePosition]. *)
Fixpoint update_lines (pd : ProcessedData) (nodesPosition : list Q) (i n : nat)
    (positions : list (option Q)) : outcome (list (option Q)) :=
  match n with
  | O => Done positions
  | S n' =>
      match links pd !! i with
      | None => TypeError
      | Some l =>
          match nodeInfoMap pd !! link_source l, nodeInfoMap pd !! link_target l with
          | Some s, Some t =>
              update_lines pd nodesPosition (S i) n'
                (<[i * 6 + 4 := nodesPosition !! (index t * 2 + 1)]>
                   (<[i * 6 + 3 := nodesPosition !! (index t * 2)]>
                      (<[i * 6 + 1 := nodesPosition !! (index s * 2 + 1)]>
                         (<[i * 6 := nodesPosition !! (index s * 2)]> positions))))
          | _, _ => TypeError
          end
      end
  end.

Definition updatePosition (g : Graph) (nodesPosition : list Q) (m : Meshes)
  : outcome Meshes :=
  let positions := update_nodes nodesPosition 0 (nodeCounts (perfInfo g))
                     (nodes_positions m) in
  bind (update_lines (processedData g) nodesPosition 0 (linkCounts (perfInfo g))
          (lines_positions m))
    (fun lp => Done {| nodes_positions := positions; nodes_scale := nodes_scale m;
                       lines_positions := lp; lines_colors := lines_colors m |}).






(** Three nodes joined in a cycle. *)
Definition triangle_data : GraphData :=
  {| data_nodes := map mkNode ["x"; "y"; "z"];
     data_links := [mkLink "x" "y" None; mkLink "y" "z" None; mkLink "z" "x" None] |}.

Definition default_camera : Camera :=
  {| cam_x := 0; cam_y := 0; cam_z := 500; aspect := 1 |}.

(** What the shared [perfInfo] holds once [hover_data] has been constructed. *)
Definition hover_perfInfo : GraphPerfInfo :=
  {| nodeCounts := 3; linkCounts := 2; prevTickTime := 0; targetTick := 0;
     intervalTime := 0; layouting := false |}.

(** ** Avatars *)

(** The state that [loadImage] and [generateAvaPoint] work on.  The fields
    [imageTexture] and [imagePoint] of the entries of [nodeInfoMap] are kept
    by id: [imageTexture] is the set of the ids whose entry has a texture,
    [imagePoint] gives the position an avatar was built at, and
    [image_cleared] is the set of the ids whose [image] a failed download
    has set to [null].  [throttleTimer] tells that the handle is set,
    [timer_armed] that its callback has not run yet, and [requested] lists
    the downloads started so far, by id and address. *)
Record Avatars := {
  av_graph : Graph;
  throttleTimer : bool;
  timer_armed : bool;
  imageTexture : gset string;
  imagePoint : gmap string (option Q * option Q);
  image_cleared : gset string;
  requested : list (string * string)
}.

Definition set_av_graph (g : Graph) (s : Avatars) : Avatars :=
  {| av_graph := g; throttleTimer := throttleTimer s; timer_armed := timer_armed s;
     imageTexture := imageTexture s; imagePoint := imagePoint s;
     image_cleared := image_cleared s; requested := requested s |}.

Definition set_timer (handle armed : bool) (s : Avatars) : Avatars :=
  {| av_graph := av_graph s; throttleTimer := handle; timer_armed := armed;
     imageTexture := imageTexture s; imagePoint := imagePoint s;
     image_cleared := image_cleared s; requested := requested s |}.

Definition set_images (textures : gset string)
    (points : gmap string (option Q * option Q)) (cleared : gset string)
    (reqs : list (string * string)) (s : Avatars) : Avatars :=
  {| av_graph := av_graph s; throttleTimer := throttleTimer s;
     timer_armed := timer_armed s;
     imageTexture := textures; imagePoint := points;
     image_cleared := cleared; requested := reqs |}.

Definition avatar_name (id : string) : string := "ava-" +:+ id.

Definition avatar (id : string) : SceneObject :=
  {| obj_name := avatar_name id; obj_center := id; obj_nodes := [id];
     obj_links := [] |}.

(** [scene.getObjectByName(n)] finds something. *)
Definition has_name (n : string) (sc : list SceneObject) : bool :=
  existsb (fun o => String.eqb (obj_name o) n) sc.

Definition generateAvaPoint (id : string) (x y : option Q) (s : Avatars) : Avatars :=
  let points :=
    match imagePoint s !! id with
    | Some _ => imagePoint s
    | None => <[id := (x, y)]> (imagePoint s)
    end in
  let g := av_graph s in
  let sc := if has_name (avatar_name id) (scene g) then scene g
            else scene g ++ [avatar id] in
  set_av_graph (set_highlight (highlighted g) sc g)
    (set_images (imageTexture s) points (image_cleared s) (requested s) s).

Definition DEFAULT_AVATAR : string := "http://img.geilicdn.com/u_default.jpg".

(** The value of [info.image]; [None] is [undefined] or [null]. *)
Definition image_of (s : Avatars) (id : string) (info : NodeInfo) : option string :=
  if decide (id ∈ image_cleared s) then None else image info.

Definition falsy (v : option string) : bool :=
  match v with
  | None => true
  | Some u => String.eqb u ""
  end.

Definition request (id url : string) (s : Avatars) : Avatars :=
  set_images (imageTexture s) (imagePoint s) (image_cleared s)
    (requested s ++ [(id, url)]) s.

(** The loop of the timer's callback over the visible nodes. *)
Fixpoint load_visible (vs : list VisibleNode) (s : Avatars) : outcome Avatars :=
  match vs with
  | [] => Done s
  | v :: vs' =>
      let id := vis_id v in
      match nodeInfoMap (processedData (av_graph s)) !! id,
            currentPositionStatus (av_graph s) with
      | Some info, Some cur =>
          let x := cur !! (index info * 2) in
          let y := cur !! (index info * 2 + 1) in
          if decide (id ∈ imageTexture s) then
            load_visible vs' (generateAvaPoint id x y s)
          else
            let img := image_of s id info in
            if (negb (String.prefix "null" id) && falsy img)
               || bool_decide (img = Some DEFAULT_AVATAR)
            then load_visible vs' (request id "/_/wx.png" s)
            else if negb (falsy img)
            then load_visible vs'
                   (request id (default "" img +:+ "?w=64&h=64") s)
            else load_visible vs' s
      | _, _ => TypeError
      end
  end.

Definition loadImage (s : Avatars) : Avatars :=
  if throttleTimer s then s else set_timer true true s.

(** The callback of the timer of [loadImage], when it runs. *)
Definition on_timer (tan_half_fov : Q) (s : Avatars) : outcome Avatars :=
  if timer_armed s then
    let s0 := set_timer (throttleTimer s) false s in
    if Qltb 300 (cam_z (camera (av_graph s))) then Done s0
    else
      bind (getAllVisibleNodes tan_half_fov (av_graph s))
        (fun vs =>
           bind (load_visible vs s0)
             (fun s1 => Done (set_timer false (timer_armed s1) s1)))
  else Done s.

(** What happens to the avatars: [render] calls [loadImage], the timer
    fires, a download ends well with the position taken when it was asked
    for, a download fails, or the camera moves. *)
Inductive Event :=
  | CallLoadImage
  | TimerFires
  | ImageLoaded (id : string) (x y : option Q)
  | ImageFailed (id : string)
  | CameraTo (z : Q).

Definition step (tan_half_fov : Q) (e : Event) (s : Avatars) : outcome Avatars :=
  match e with
  | CallLoadImage => Done (loadImage s)
  | TimerFires => on_timer tan_half_fov s
  | ImageLoaded id x y =>
      Done (generateAvaPoint id x y
              (set_images ({[id]} ∪ imageTexture s) (imagePoint s)
                 (image_cleared s) (requested s) s))
  | ImageFailed id =>
      Done (set_images (imageTexture s) (imagePoint s)
              ({[id]} ∪ image_cleared s) (requested s) s)
  | CameraTo z => Done (set_av_graph (zoom_to z (av_graph s)) s)
  end.

Fixpoint run (tan_half_fov : Q) (es : list Event) (s : Avatars) : outcome Avatars :=
  match es with
  | [] => Done s
  | e :: es' => bind (step tan_half_fov e s) (run tan_half_fov es')
  end.

(** No node has two avatars in the scene. *)
Definition one_avatar_each (s : Avatars) : Prop :=
  forall id, count_named (avatar_name id) (scene (av_graph s)) <= 1.

(** [hover_graph] with nothing loaded and the throttle free. *)
Definition hover_avatars : Avatars :=
  {| av_graph := hover_graph; throttleTimer := false; timer_armed := false;
     imageTexture := ∅; imagePoint := ∅; image_cleared := ∅; requested := [] |}.

(** ** The pointer *)

(** [mousePosition] after [mouseMoveHandler]: the offset of the pointer from
    the middle of the chart, in pixels, upwards positive.  [rect_left] and
    [rect_top] are those of [containerRect]. *)
Definition mouseMoveHandler (clientX clientY rect_left rect_top width height : Q)
  : Q * Q :=
  ((clientX - rect_left - width / 2)%Q,
   (height - clientY + rect_top - height / 2)%Q).

(** [mousePosition] after [mouseOutHandler], and before any event. *)
Definition mouseOutHandler : Q * Q := ((-9999)%Q, (-9999)%Q).

(** [normalMouse] of [updateHighLight]. *)
Definition normalMouse (width height : Q) (mousePosition : Q * Q) : outcome (Q * Q) :=
  if Qeq_bool width 0 || Qeq_bool height 0 then DivisionByZero
  else Done ((fst mousePosition * 2 / width)%Q, (snd mousePosition * 2 / height)%Q).

(** An element of what [ray.intersectObjects] returns: the type and the
    name of the object hit, the index of the point hit, and the [nodeId] of
    the object when it has one. *)
Record Intersection := {
  hit_type : string;
  hit_name : string;
  hit_index : nat;
  hit_nodeId : option string
}.

(** The rest of [updateHighLight]; [hits] is what [ray.intersectObjects]
    returns. *)
Definition updateHighLight (hits : list Intersection) (mouseOnTable : bool)
    (g : Graph) : outcome Graph :=
  let intersects :=
    filter (fun e => String.eqb (hit_type e) "Points"
                     && negb (String.prefix "hl" (hit_name e)) = true) hits in
  match intersects with
  | target :: _ =>
      bind
        (if String.eqb (hit_name target) "basePoints" then
           match nodes (processedData g) !! hit_index target with
           | Some id => Done (Some id)
           | None => TypeError
           end
         else if String.prefix "ava-" (hit_name target) then Done (hit_nodeId target)
         else Done None)
        (fun id =>
           match id with
           | Some id => if String.eqb id "" then Done g else highlight id g
           | None => Done g
           end)
  | [] => if mouseOnTable then Done g else Done (unhighlight g)
  end.

(** [k] frames in a row with the same [hits]. *)
Fixpoint frames (k : nat) (hits : list Intersection) (mouseOnTable : bool)
    (g : Graph) : outcome Graph :=
  match k with
  | O => Done g
  | S k' => bind (updateHighLight hits mouseOnTable g) (frames k' hits mouseOnTable)
  end.

(** The pointer on the point of index 0. *)
Definition hit_first_point : Intersection :=
  {| hit_type := "Points"; hit_name := "basePoints"; hit_index := 0;
     hit_nodeId := None |}.

(** * Properties *)

(** ** Lists *)

Lemma filter_all {A} (P : A -> Prop) `{forall x, Decision (P x)} (l : list A) :
  (forall x, x ∈ l -> P x) -> filter P l = l.
Proof.
  induction l as [|x l IH]; intros Hall; [done|].
  rewrite filter_cons_True by (apply Hall; left).
  f_equal. apply IH. intros y Hy. apply Hall. by right.
Qed.


(** ** Indexing of the nodes *)

Lemma node_inv_dom st k :
  node_inv st -> (k ∈ nl_nodes st <-> is_Some (nl_nodeInfoMap st !! k)).
Proof.
  intros (_ & _ & H). rewrite list_elem_of_lookup. split.
  - intros [i Hi]. apply H in Hi as (info & Hinfo & _). by exists info.
  - intros [info Hinfo]. exists (index info). apply H. by exists info.
Qed.

Lemma node_step_inv st e : node_inv st -> node_inv (node_step st e).
Proof.
  intros Hinv. unfold node_step.
  destruct (nl_nodeInfoMap st !! node_id e) as [old|] eqn:Hlk; [done|].
  pose proof Hinv as (Hc & Hnd & Hix).
  assert (Hnot : node_id e ∉ nl_nodes st).
  { rewrite (node_inv_dom _ _ Hinv), Hlk. by intros [? ?]. }
  split; [|split]; simpl.
  - rewrite length_app. simpl. lia.
  - apply NoDup_app. split; [done|]. split; [|apply NoDup_singleton].
    intros x Hx ->%list_elem_of_singleton. by apply Hnot.
  - intros k i. destruct (decide (k = node_id e)) as [->|Hne].
    + rewrite lookup_insert_eq. split.
      * intros Hi. eexists; split; [done|]. simpl.
        destruct (decide (i < length (nl_nodes st))) as [Hlt|Hge].
        { rewrite lookup_app_l in Hi by done. exfalso. apply Hnot.
          apply list_elem_of_lookup. eauto. }
        rewrite lookup_app_r in Hi by lia.
        apply list_lookup_singleton_Some in Hi as [Hi _]. lia.
      * intros (info & [= <-] & <-). simpl. rewrite Hc.
        rewrite lookup_app_r by lia. by rewrite Nat.sub_diag.
    + rewrite lookup_insert_ne by done. rewrite <- Hix. split.
      * intros Hi. destruct (decide (i < length (nl_nodes st))) as [Hlt|Hge].
        { by rewrite lookup_app_l in Hi. }
        rewrite lookup_app_r in Hi by lia.
        apply list_lookup_singleton_Some in Hi as [_ Hi]. congruence.
      * intros Hi. rewrite lookup_app_l; [done|]. by eapply lookup_lt_Some.
Qed.

Lemma node_fold_inv ns st : node_inv st -> node_inv (fold_left node_step ns st).
Proof.
  revert st. induction ns as [|e ns IH]; intros st Hinv; simpl; [done|].
  apply IH. by apply node_step_inv.
Qed.

Lemma node_inv_init :
  node_inv {| nl_nodes := []; nl_nodeInfoMap := ∅; nodeCount := 0 |}.
Proof.
  split; [done|]. split; [apply NoDup_nil_2|]. intros k i. simpl. split.
  - by rewrite lookup_nil.
  - intros (info & Hinfo & _). by rewrite lookup_empty in Hinfo.
Qed.

Lemma node_fold_first_seen ns st :
  node_inv st ->
  nl_nodes (fold_left node_step ns st)
  = nl_nodes st ++ filter (fun k => k ∉ nl_nodes st) (first_seen (map node_id ns)).
Proof.
  revert st. induction ns as [|e ns IH]; intros st Hinv; simpl.
  - by rewrite filter_nil, app_nil_r.
  - rewrite (IH _ (node_step_inv st e Hinv)). unfold node_step.
    destruct (nl_nodeInfoMap st !! node_id e) as [old|] eqn:Hlk.
    + assert (Hin : node_id e ∈ nl_nodes st).
      { rewrite (node_inv_dom _ _ Hinv), Hlk. by eexists. }
      rewrite filter_cons_False by (intros Hn; by apply Hn).
      rewrite list_filter_filter. f_equal. apply list_filter_iff.
      intros x. split; [|tauto]. intros Hx. split; [done|]. by intros ->.
    + assert (Hnot : node_id e ∉ nl_nodes st).
      { rewrite (node_inv_dom _ _ Hinv), Hlk. by intros [? ?]. }
      simpl. rewrite filter_cons_True by done.
      rewrite <- app_assoc. simpl. do 2 f_equal.
      rewrite list_filter_filter. apply list_filter_iff.
      intros x. rewrite elem_of_app, list_elem_of_singleton. tauto.
Qed.



(** ** Indexing of the links *)

Lemma accepted_cons_seen m e es :
  is_Some (m !! key_of e) -> accepted m (e :: es) = accepted m es.
Proof.
  intros [v Hv]. unfold accepted. simpl.
  rewrite filter_cons_False by congruence.
  rewrite list_filter_filter. apply list_filter_iff.
  intros x. split; [tauto|]. intros Hx. split; [done|]. congruence.
Qed.

Lemma accepted_cons_new m e es v :
  m !! key_of e = None ->
  accepted m (e :: es) = e :: accepted (<[key_of e := v]> m) es.
Proof.
  intros Hn. unfold accepted. simpl.
  rewrite filter_cons_True by done. f_equal.
  rewrite list_filter_filter. apply list_filter_iff.
  intros x. rewrite lookup_insert_None. split; intros [? ?]; split; congruence.
Qed.

Lemma accepted_empty es : accepted ∅ es = first_by_key es.
Proof. apply filter_all. intros x _. apply lookup_empty. Qed.

Lemma link_loop_Some nim es st st' :
  link_loop nim es st = Some st' ->
  ll_links st' = ll_links st ++ map to_d3 (accepted (ll_linkInfoMap st) es)
  /\ ll_linkBuffer st'
     = ll_linkBuffer st
       ++ flat_map (fun e => [resolved nim (source e); resolved nim (target e)])
            (accepted (ll_linkInfoMap st) es)
  /\ Forall (fun e => ~ dangling nim e) (accepted (ll_linkInfoMap st) es)
  /\ (forall k, ll_linkInfoMap st' !! k
        = match ll_linkInfoMap st !! k with
          | Some v => Some v
          | None => (fun e => {| info_color := color e |})
                      <$> find (fun e => String.eqb (key_of e) k) es
          end)
  /\ linkCountMap st'
     = fold_left bump (map source (accepted (ll_linkInfoMap st) es)) (linkCountMap st)
  /\ linkCount st' = linkCount st + length (accepted (ll_linkInfoMap st) es).
Proof.
  revert st. induction es as [|e es IH]; intros st H; simpl in H.
  - injection H as <-. unfold accepted. simpl.
    rewrite !app_nil_r. repeat split; try done; try lia.
    intros k. by destruct (ll_linkInfoMap st !! k).
  - unfold link_step in H. fold (key_of e) in H.
    destruct (ll_linkInfoMap st !! key_of e) as [v|] eqn:Hlk.
    + apply IH in H as (H1 & H2 & H3 & H4 & H5 & H6).
      rewrite accepted_cons_seen by (by eexists).
      repeat split; try done.
      intros k. rewrite H4. destruct (ll_linkInfoMap st !! k) eqn:Hk; [done|].
      simpl. destruct (String.eqb_spec (key_of e) k); [congruence|done].
    + destruct (nim !! source e) as [si|] eqn:Hs; [|done].
      destruct (nim !! target e) as [ti|] eqn:Ht; [|done].
      apply IH in H as (H1 & H2 & H3 & H4 & H5 & H6). simpl in *.
      rewrite (accepted_cons_new _ _ _ {| info_color := color e |}) by done.
      fold (key_of e) in *.
      repeat split.
      * rewrite H1, <- app_assoc. done.
      * rewrite H2, <- app_assoc. simpl. unfold resolved at 3 4.
        by rewrite Hs, Ht.
      * constructor; [|done]. unfold dangling. intros [?|?]; congruence.
      * intros k. rewrite H4. destruct (decide (key_of e = k)) as [<-|Hne].
        -- rewrite lookup_insert_eq, Hlk. simpl. by rewrite String.eqb_refl.
        -- rewrite lookup_insert_ne by done.
           destruct (ll_linkInfoMap st !! k); [done|]. simpl.
           by destruct (String.eqb_spec (key_of e) k).
      * done.
      * simpl. lia.
Qed.




Lemma node_loop_inv ns : node_inv (node_loop ns).
Proof. apply node_fold_inv, node_inv_init. Qed.

Lemma node_loop_nodes ns : nl_nodes (node_loop ns) = first_seen (map node_id ns).
Proof.
  unfold node_loop. rewrite node_fold_first_seen by apply node_inv_init.
  simpl. apply filter_all. intros x _. apply not_elem_of_nil.
Qed.
















(** What [preProcessData] returns, in terms of the links it retains. *)
Lemma preProcessData_Some d r :
  preProcessData d = Some r ->
  nodes r = nl_nodes (node_loop (data_nodes d))
  /\ nodeInfoMap r = nl_nodeInfoMap (node_loop (data_nodes d))
  /\ links r = map to_d3 (first_by_key (data_links d))
  /\ linkBuffer r
     = Int32Array
         (flat_map (fun e => [resolved (nodeInfoMap r) (source e);
                              resolved (nodeInfoMap r) (target e)])
            (first_by_key (data_links d)))
  /\ Forall (fun e => ~ dangling (nodeInfoMap r) e) (first_by_key (data_links d))
  /\ (forall k, linkInfoMap r !! k
        = (fun e => {| info_color := color e |})
            <$> find (fun e => String.eqb (key_of e) k) (data_links d))
  /\ statTable r
     = take 20 (js_sort stat_cmp
                  (stat_entries
                     (fold_left bump (map source (first_by_key (data_links d))) []))).
Proof.
  unfold preProcessData.
  destruct (link_loop _ _ _) as [ls|] eqn:Hl; [|done].
  intros [= <-]. simpl.
  apply link_loop_Some in Hl as (H1 & H2 & H3 & H4 & H5 & H6).
  simpl in *. rewrite accepted_empty in *.
  repeat split; try done.
  - by rewrite H2.
  - by rewrite H5.
Qed.







Example scenario_links :
  (fun r => (links r, linkBuffer r, linkInfoMap r !! "a-b"))
    <$> preProcessData scenario_graph
  = Some ([{| link_source := "a"; link_target := "b" |};
           {| link_source := "a"; link_target := "c" |}],
          [0; 1; 0; 2]%Z,
          Some {| info_color := Some red |}).
Proof. reflexivity. Qed.





Example dangling_graph_aborts : preProcessData dangling_graph = None.
Proof. reflexivity. Qed.

(** ** Objects, key enumeration and sorting *)



Lemma obj_get_is_Some {V} (o : JsObj V) k : is_Some (obj_get o k) <-> k ∈ map fst o.
Proof.
  induction o as [|[k0 v0] o IH]; simpl.
  - rewrite elem_of_nil. split; [by intros [? ?]|done].
  - rewrite elem_of_cons. destruct (String.eqb_spec k k0) as [->|Hne].
    + split; [by left|by eexists].
    + rewrite IH. tauto.
Qed.
































Example scenario_ranking :
  statTable <$> preProcessData scenario_graph
  = Some [{| stat_source := "a"; count := 2 |}].
Proof. reflexivity. Qed.


(** ** The interpolation clock *)

Local Open Scope Q_scope.




Lemma blend_loop_Done i cur tgt cache interval stepTime :
  interval <> 0%Z ->
  (i + length cur <= length tgt)%nat -> (i + length cur <= length cache)%nat ->
  exists out,
    blend_loop i cur tgt cache interval stepTime = Done out
    /\ length out = length cur
    /\ forall j t c, (j < length cur)%nat ->
         tgt !! (i + j)%nat = Some t -> cache !! (i + j)%nat = Some c ->
         out !! j = Some (blend t c interval stepTime).
Proof.
  intros Hne. revert i. induction cur as [|x cur IH]; intros i Ht Hc; simpl.
  - exists []. repeat split; [done..|]. intros j t c Hj. simpl in Hj. lia.
  - apply Z.eqb_neq in Hne as Hb. rewrite Hb. simpl in Ht, Hc.
    destruct (lookup_lt_is_Some_2 tgt i) as [t0 Ht0]; [lia|].
    destruct (lookup_lt_is_Some_2 cache i) as [c0 Hc0]; [lia|].
    rewrite Ht0, Hc0.
    destruct (IH (S i)) as (out & -> & Hlen & Hout); [lia..|]. simpl.
    eexists. split; [done|]. split; [simpl; by rewrite Hlen|].
    intros [|j] t c Hj Htj Hcj.
    + rewrite Nat.add_0_r in Htj, Hcj. simpl. congruence.
    + simpl. apply Hout; [lia|..].
      * by replace (S i + j)%nat with (i + S j)%nat by lia.
      * by replace (S i + j)%nat with (i + S j)%nat by lia.
Qed.



Lemma blend_loop_division i cur tgt cache interval stepTime :
  blend_loop i cur tgt cache interval stepTime = DivisionByZero
  <-> interval = 0%Z /\ cur <> [].
Proof.
  revert i. induction cur as [|x cur IH]; intros i; simpl.
  - split; [done|]. by intros [_ ?].
  - destruct (Z.eqb_spec interval 0) as [->|Hne].
    + split; [|done]. intros _. split; [done|]. discriminate.
    + split; [|tauto]. intros H. exfalso.
      destruct (tgt !! i); [|done]. destruct (cache !! i); [|done].
      destruct (blend_loop (S i) cur tgt cache interval stepTime) eqn:E;
        simpl in H; try done.
      apply IH in E as [? _]. done.
Qed.

Lemma bind_division {A B} (o : outcome A) (k : A -> outcome B) :
  bind o k = DivisionByZero
  <-> o = DivisionByZero \/ exists a, o = Done a /\ k a = DivisionByZero.
Proof.
  destruct o as [a| | |]; simpl; split; try done; auto.
  - intros H. right. by exists a.
  - by intros [?|(a' & [= <-] & ?)].
  - by intros [?|(a' & ? & ?)].
  - by intros [?|(a' & ? & ?)].
Qed.

Lemma snap_no_division g : snap_when_finished g <> DivisionByZero.
Proof.
  unfold snap_when_finished.
  repeat match goal with
         | |- context [if ?b then _ else _] => destruct b
         | |- context [match ?o with Some _ => _ | None => _ end] => destruct o
         end; done.
Qed.

Lemma interpolate_division now g :
  interpolate now g = DivisionByZero
  <-> (now - prevTickTime (perfInfo g) <= intervalTime (perfInfo g))%Z
      /\ intervalTime (perfInfo g) = 0%Z
      /\ exists x cur tgt cache,
           currentPositionStatus g = Some (x :: cur)
           /\ targetPositionStatus g = Some tgt
           /\ cachePositionStatus g = Some cache.
Proof.
  unfold interpolate.
  destruct (Z.leb_spec (now - prevTickTime (perfInfo g)) (intervalTime (perfInfo g)))
    as [Hle|Hgt]; [|split; [done|lia]].
  destruct (currentPositionStatus g) as [[|x cur]|]; cycle 2.
  { split; [done|]. by intros (_ & _ & x & c & t & ca & [=] & _). }
  { split; [|by intros (_ & _ & x & c & t & ca & [=] & _)].
    by destruct (targetPositionStatus g), (cachePositionStatus g). }
  destruct (targetPositionStatus g) as [tgt|]; cycle 1.
  { split; [done|]. by intros (_ & _ & x' & c & t & ca & _ & [=] & _). }
  destruct (cachePositionStatus g) as [cache|]; cycle 1.
  { split; [done|]. by intros (_ & _ & x' & c & t & ca & _ & _ & [=]). }
  rewrite bind_division. split.
  - intros [E|(out & _ & [=])].
    apply blend_loop_division in E as [Hz Hne].
    split; [done|]. split; [done|]. by exists x, cur, tgt, cache.
  - intros (_ & Hz & x' & cur' & tgt' & cache' & [= -> ->] & _).
    left. by apply blend_loop_division.
Qed.

Lemma render_blend_division now g :
  render_blend now g = DivisionByZero <-> interpolate now g = DivisionByZero.
Proof.
  unfold render_blend. rewrite bind_division. split; [|by left].
  intros [?|(g1 & _ & H)]; [done|]. by apply snap_no_division in H.
Qed.

Lemma render_direct_Done g :
  render_direct g = TypeError
  \/ render_direct g
     = Done (set_positions (targetPositionStatus g) (targetPositionStatus g)
               (cachePositionStatus g) true g).
Proof.
  unfold render_direct.
  destruct (targetPositionStatus g), (nodeCounts (perfInfo g)),
    (linkCounts (perfInfo g)); auto.
Qed.

Lemma begin_frame_fields g :
  perfInfo (begin_frame g) = perfInfo g
  /\ camera (begin_frame g) = clamp_camera (camera g)
  /\ targetPositionStatus (begin_frame g) = targetPositionStatus g
  /\ currentPositionStatus (begin_frame g) = currentPositionStatus g
  /\ cachePositionStatus (begin_frame g) = cachePositionStatus g
  /\ current_is_target (begin_frame g) = current_is_target g.
Proof. done. Qed.

(** C5, as amended: [render] has no guard against an interval of zero.  It
    divides by the interval in the branch of more than 1000 nodes, when the
    step time is at most the interval; the division by zero is reached
    exactly when, in that branch, the interval is zero, the step time is at
    most zero and the rendered buffer is not empty; no division by zero is
    reached when the interval is not zero, when the step time is above the
    interval, or at 1000 nodes and below.  With an interval of zero and a
    step time above zero, while the layout runs, the frame shows the
    rendered buffer as it was: nothing snaps it to the target. *)
Theorem division_by_zero_reached (controls_update : Camera -> Camera) (now : Z)
    (g : Graph) :
  (render controls_update now g = DivisionByZero
   <-> (1000 < nodeCounts (perfInfo g))%nat
       /\ intervalTime (perfInfo g) = 0%Z
       /\ (now - prevTickTime (perfInfo g) <= 0)%Z
       /\ exists x cur tgt cache,
            currentPositionStatus g = Some (x :: cur)
            /\ targetPositionStatus g = Some tgt
            /\ cachePositionStatus g = Some cache)
  /\ (intervalTime (perfInfo g) <> 0%Z ->
      render controls_update now g <> DivisionByZero)
  /\ ((intervalTime (perfInfo g) < now - prevTickTime (perfInfo g))%Z ->
      render controls_update now g <> DivisionByZero)
  /\ ((nodeCounts (perfInfo g) <= 1000)%nat ->
      render controls_update now g <> DivisionByZero)
  /\ ((1000 < nodeCounts (perfInfo g))%nat ->
      intervalTime (perfInfo g) = 0%Z ->
      (0 < now - prevTickTime (perfInfo g))%Z ->
      layouting (perfInfo g) = true ->
      exists g',
        render controls_update now g
        = Done (g', {| frame_camera := clamp_camera (camera g);
                       frame_positions := currentPositionStatus g |})).
Proof.
  assert (Hiff : render controls_update now g = DivisionByZero
   <-> (1000 < nodeCounts (perfInfo g))%nat
       /\ intervalTime (perfInfo g) = 0%Z
       /\ (now - prevTickTime (perfInfo g) <= 0)%Z
       /\ exists x cur tgt cache,
            currentPositionStatus g = Some (x :: cur)
            /\ targetPositionStatus g = Some tgt
            /\ cachePositionStatus g = Some cache).
  { unfold render. rewrite bind_division.
    destruct (begin_frame_fields g) as (-> & _ & Ht & Hc & Hca & _).
    destruct (Nat.ltb_spec 1000 (nodeCounts (perfInfo g))) as [Hlt|Hge].
    - rewrite render_blend_division, interpolate_division.
      destruct (begin_frame_fields g) as (-> & _ & -> & -> & -> & _).
      split.
      + intros [(Hle & Hz & Hex)|(g1 & _ & [=])].
        split; [done|]. split; [done|]. split; [lia|done].
      + intros (_ & Hz & Hle & Hex). left. split; [lia|]. by split.
    - split; [|lia]. intros [H|(g1 & _ & [=])].
      by destruct (render_direct_Done (begin_frame g)) as [E|E]; rewrite E in H. }
  split; [exact Hiff|]. split; [|split; [|split]].
  - intros Hne H. apply Hiff in H as (_ & Hz & _). done.
  - intros Hgt H. apply Hiff in H as (_ & Hz & Hle & _). lia.
  - intros Hle H. apply Hiff in H as (Hlt & _). lia.
  - intros Hlt Hz Hgt Hlay. unfold render.
    destruct (begin_frame_fields g) as (Hp & Hcam & Ht & Hc & Hca & _).
    rewrite Hp. destruct (Nat.ltb_spec 1000 (nodeCounts (perfInfo g))); [|lia].
    unfold render_blend, interpolate. rewrite Hp.
    destruct (Z.leb_spec (now - prevTickTime (perfInfo g))
                (intervalTime (perfInfo g))); [lia|].
    simpl. unfold snap_when_finished. rewrite Hp, Hlay. simpl.
    eexists. unfold finish_frame. by rewrite Hcam, Hc.
Qed.

(** C5, as it is stated, fails: with more than 1000 nodes, the first two
    ticks handled in one millisecond leave an interval of zero, and a frame
    in that millisecond divides by it. *)
Lemma zero_interval_is_not_guarded :
  intervalTime (perfInfo same_millisecond_graph) = 0%Z
  /\ nodeCounts (perfInfo same_millisecond_graph) = 1001%nat
  /\ rafId same_millisecond_graph = true
  /\ render (fun c => c) 5000 same_millisecond_graph = DivisionByZero.
Proof. vm_compute. done. Qed.


(** Above 1000 nodes, while the layout runs, a frame within the interval of
    the last tick shows the buffer that the interpolation loop computes. *)
Lemma render_shows_blend (controls_update : Camera -> Camera) (now : Z) (g : Graph)
    (cur tgt cache : list Q) :
  (1000 < nodeCounts (perfInfo g))%nat ->
  layouting (perfInfo g) = true ->
  currentPositionStatus g = Some cur ->
  targetPositionStatus g = Some tgt ->
  cachePositionStatus g = Some cache ->
  length tgt = length cur -> length cache = length cur ->
  (0 < intervalTime (perfInfo g))%Z ->
  (0 <= now - prevTickTime (perfInfo g) <= intervalTime (perfInfo g))%Z ->
  exists g' out,
    blend_loop 0 cur tgt cache (intervalTime (perfInfo g))
      (now - prevTickTime (perfInfo g)) = Done out
    /\ render controls_update now g
       = Done (g', {| frame_camera := clamp_camera (camera g);
                      frame_positions := Some out |}).
Proof.
  intros Hn Hlay Hcur Htgt Hcache Hlt Hlc Hi Hs.
  destruct (blend_loop_Done 0 cur tgt cache (intervalTime (perfInfo g))
              (now - prevTickTime (perfInfo g)))
    as (out & Hout & _); [lia..|].
  unfold render.
  destruct (begin_frame_fields g) as (Hp & Hcam & Ht & Hc & Hca & _).
  rewrite Hp. destruct (Nat.ltb_spec 1000 (nodeCounts (perfInfo g))); [|lia].
  unfold render_blend, interpolate. rewrite Hp, Ht, Hc, Hca, Hcur, Htgt, Hcache.
  destruct (Z.leb_spec (now - prevTickTime (perfInfo g))
              (intervalTime (perfInfo g))); [|lia].
  exists
    (startRender
       (set_camera (controls_update (clamp_camera (camera g)))
          (set_positions
             (if current_is_target (begin_frame g) then Some out else Some tgt)
             (Some out) (Some cache) (current_is_target (begin_frame g))
             (begin_frame g)))), out.
  split; [done|].
  destruct cur as [|x cur]; rewrite Hout; simpl;
    unfold snap_when_finished; simpl; rewrite Hlay; simpl;
    unfold finish_frame; simpl; reflexivity.
Qed.


Example blending_above_threshold :
  exists g' out v,
    render (fun c => c) 1015 large_graph
    = Done (g', {| frame_camera := {| cam_x := 0; cam_y := 0; cam_z := 16000;
                                      aspect := 1 |};
                   frame_positions := Some out |})
    /\ out !! 0%nat = Some v /\ v == 5.
Proof.
  eexists _, _, _. split; [vm_compute; reflexivity|].
  split; reflexivity.
Qed.

(** Once the layout has ended, a frame later than the last interval shows
    the final snapshot. *)
Example snap_after_layout_end :
  exists g',
    render (fun c => c) 9000
      (layout_finished (on_end (repeat 30 2002) large_graph))
    = Done (g', {| frame_camera := {| cam_x := 0; cam_y := 0; cam_z := 16000;
                                      aspect := 1 |};
                   frame_positions := Some (repeat 30 2002) |})
    /\ current_is_target g' = true.
Proof. eexists. split; [vm_compute; reflexivity|]. reflexivity. Qed.

(** ** The camera *)

Lemma Qltb_lt a b : Qltb a b = true <-> a < b.
Proof.
  unfold Qltb. rewrite negb_true_iff, <- not_true_iff_false, Qle_bool_iff.
  split; [apply Qnot_le_lt|apply Qlt_not_le].
Qed.

Lemma Qltb_ge a b : Qltb a b = false <-> b <= a.
Proof. unfold Qltb. by rewrite negb_false_iff, Qle_bool_iff. Qed.






Example camera_clamped_far :
  exists g' f,
    render (fun c => c) 1015 large_graph = Done (g', f)
    /\ cam_z (camera large_graph) = 20000
    /\ cam_z (frame_camera f) = 16000.
Proof. eexists _, _. split; [vm_compute; reflexivity|]. split; reflexivity. Qed.

(** ** The viewport culler *)

Lemma in_rect_spec r x y :
  in_rect r (Some x) (Some y) = true
  <-> (left r <= x <= right r) /\ (bottom r <= y <= top r).
Proof.
  unfold in_rect. rewrite !andb_true_iff, !Qle_bool_iff. tauto.
Qed.

Lemma in_rect_defined r ox oy :
  in_rect r ox oy = true -> exists x y, ox = Some x /\ oy = Some y.
Proof. destruct ox, oy; simpl; try done. eauto. Qed.

Lemma visible_from_spec r ids tgt i n :
  (i + n <= length ids)%nat ->
  exists vs,
    visible_from r ids tgt i n = Done vs
    /\ forall v, v ∈ vs
         <-> exists j, (i <= j < i + n)%nat
               /\ ids !! j = Some (vis_id v)
               /\ tgt !! (j * 2)%nat = Some (vis_x v)
               /\ tgt !! (j * 2 + 1)%nat = Some (vis_y v)
               /\ in_rect r (Some (vis_x v)) (Some (vis_y v)) = true.
Proof.
  revert i. induction n as [|n IH]; intros i Hlen; cbn [visible_from].
  - exists []. split; [done|]. intros v. split; [by intros ?%elem_of_nil|].
    intros (j & Hj & _). lia.
  - destruct (IH (S i)) as (vs & Hvs & Hin); [lia|].
    destruct (in_rect r (tgt !! (i * 2)%nat) (tgt !! (i * 2 + 1)%nat)) eqn:Hr.
    + destruct (in_rect_defined _ _ _ Hr) as (x & y & Hx & Hy).
      destruct (lookup_lt_is_Some_2 ids i) as [k Hk]; [lia|].
      rewrite Hk, Hx, Hy, Hvs. simpl. eexists. split; [done|].
      intros v. rewrite elem_of_cons, Hin. split.
      * intros [->|(j & Hj & Hrest)].
        -- exists i. simpl. rewrite Hx, Hy in Hr. split; [lia|done].
        -- exists j. split; [lia|done].
      * intros (j & Hj & Hid & Hvx & Hvy & Hv).
        destruct (decide (j = i)) as [->|Hne].
        -- left. destruct v as [vk vx vy]. simpl in *.
           rewrite Hk in Hid. rewrite Hx in Hvx. rewrite Hy in Hvy.
           congruence.
        -- right. exists j. split; [lia|done].
    + rewrite Hvs. exists vs. split; [done|].
      intros v. rewrite Hin. split.
      * intros (j & Hj & Hrest). exists j. split; [lia|done].
      * intros (j & Hj & Hid & Hvx & Hvy & Hv).
        destruct (decide (j = i)) as [->|Hne].
        -- rewrite Hvx, Hvy in Hr. congruence.
        -- exists j. split; [lia|done].
Qed.



(** A node on the right edge and a node on the bottom edge are returned; a
    node beyond the right edge by a thousandth is not. *)
Example visible_on_the_edges :
  getAllVisibleNodes (1 # 2) culling_graph
  = Done [{| vis_id := "a"; vis_x := 10; vis_y := 0 |};
          {| vis_id := "b"; vis_x := 0; vis_y := -10 |}].
Proof. reflexivity. Qed.

Local Close Scope Q_scope.

(** ** Highlighting *)

Lemma remove_by_name_absent n sc :
  Forall (fun o => obj_name o <> n) sc -> remove_by_name n sc = sc.
Proof.
  induction 1 as [|o sc Ho _ IH]; simpl; [done|].
  destruct (String.eqb_spec (obj_name o) n); [done|]. by rewrite IH.
Qed.

(** [unhighlight] when the scene holds no object of the four names it looks
    for: the scene is left as it is. *)
Lemma unhighlight_nothing g :
  Forall (fun o => obj_name o <> "hlNodes" /\ obj_name o <> "hlLines"
                   /\ obj_name o <> "hlText" /\ obj_name o <> "hlArrows")
         (scene g) ->
  scene (unhighlight g) = scene g /\ highlighted (unhighlight g) = None.
Proof.
  intros Hall. split; [|done]. unfold unhighlight. simpl.
  rewrite (remove_by_name_absent "hlNodes")
    by (eapply Forall_impl; [exact Hall|]; simpl; tauto).
  rewrite (remove_by_name_absent "hlLines")
    by (eapply Forall_impl; [exact Hall|]; simpl; tauto).
  rewrite (remove_by_name_absent "hlText")
    by (eapply Forall_impl; [exact Hall|]; simpl; tauto).
  rewrite (remove_by_name_absent "hlArrows")
    by (eapply Forall_impl; [exact Hall|]; simpl; tauto).
  done.
Qed.

(** [highlight] of another id removes nothing: the scene it leaves is the
    scene it found, followed by four new objects. *)
Lemma highlight_only_adds i g g1 :
  highlighted g <> Some i -> highlight i g = Done g1 ->
  highlighted g1 = Some i
  /\ exists added, scene g1 = scene g ++ added
       /\ map obj_name added = ["hlNodes"; "hlLine"; "hlArrow"; "hlText"]
       /\ Forall (fun o => obj_center o = i) added.
Proof.
  intros Hne. unfold highlight. rewrite decide_False by done.
  unfold addHighLight.
  destruct (find _ _) as [sourceNode|]; [|done].
  destruct (currentPositionStatus g); [|done].
  destruct (all_indexed _ _); [|done].
  simpl. intros [= <-]. simpl. split; [done|].
  eexists. split; [done|]. split; [done|].
  repeat constructor.
Qed.

(** C9 does not hold of the code.  [highlight] of "a" and then of "b"
    leaves the four objects built for "a" in the scene, before those built
    for "b"; [unhighlight] after [highlight] of "a" removes the objects
    named ["hlNodes"] and ["hlText"] and leaves those named ["hlLine"] and
    ["hlArrow"], which it looks for under the names ["hlLines"] and
    ["hlArrows"]; after the two highlights it removes two objects of "a"
    and none of "b".  In each case the highlighted id is cleared. *)
Theorem highlight_leaves_stale_objects :
  exists g1 g2,
    highlight "a" hover_graph = Done g1
    /\ highlight "b" g1 = Done g2
    /\ scene_summary g1
       = [("basePoints", ""); ("baseLines", ""); ("hlNodes", "a");
          ("hlLine", "a"); ("hlArrow", "a"); ("hlText", "a")]
    /\ highlighted g2 = Some "b"
    /\ scene_summary g2
       = [("basePoints", ""); ("baseLines", ""); ("hlNodes", "a");
          ("hlLine", "a"); ("hlArrow", "a"); ("hlText", "a");
          ("hlNodes", "b"); ("hlLine", "b"); ("hlArrow", "b"); ("hlText", "b")]
    /\ highlighted (unhighlight g1) = None
    /\ scene_summary (unhighlight g1)
       = [("basePoints", ""); ("baseLines", ""); ("hlLine", "a"); ("hlArrow", "a")]
    /\ highlighted (unhighlight g2) = None
    /\ scene_summary (unhighlight g2)
       = [("basePoints", ""); ("baseLines", ""); ("hlLine", "a"); ("hlArrow", "a");
          ("hlNodes", "b"); ("hlLine", "b"); ("hlArrow", "b"); ("hlText", "b")].
Proof.
  eexists _, _. split; [vm_compute; reflexivity|].
  split; [vm_compute; reflexivity|].
  repeat split; reflexivity.
Qed.

Example highlight_neighbours :
  exists g1,
    highlight "b" hover_graph = Done g1
    /\ map obj_nodes (highlight_objects g1) = [["a"; "c"; "b"]; []; []; ["b"]]
    /\ map obj_links (highlight_objects g1)
       = [[];
          [{| link_source := "a"; link_target := "b" |};
           {| link_source := "b"; link_target := "c" |}];
          [{| link_source := "a"; link_target := "b" |};
           {| link_source := "b"; link_target := "c" |}];
          []].
Proof. eexists. split; [vm_compute; reflexivity|]. split; reflexivity. Qed.

Example highlight_same_id :
  exists g1, highlight "a" hover_graph = Done g1 /\ highlight "a" g1 = Done g1.
Proof. eexists. split; [vm_compute; reflexivity|]. reflexivity. Qed.

(** * More of the class *)

(** ** What indexing returns *)

Lemma first_seen_sublist l : first_seen l `sublist_of` l.
Proof.
  induction l as [|x l IH]; simpl; [done|].
  apply sublist_skip. etransitivity; [apply sublist_filter|exact IH].
Qed.

Lemma first_by_key_sublist es : first_by_key es `sublist_of` es.
Proof.
  induction es as [|x es IH]; simpl; [done|].
  apply sublist_skip. etransitivity; [apply sublist_filter|exact IH].
Qed.





(** X3: indexing neither reorders nor invents: the ids kept are a
    subsequence of the ids of the input nodes, and the links kept are a
    subsequence of the input links. *)
Theorem indexing_keeps_input_order (d : GraphData) (r : ProcessedData) :
  preProcessData d = Some r ->
  nodes r `sublist_of` map node_id (data_nodes d)
  /\ links r `sublist_of` map to_d3 (data_links d).
Proof.
  intros Hr.
  pose proof (preProcessData_Some d r Hr) as (Hn & _ & Hl & _).
  split.
  - rewrite Hn, node_loop_nodes. apply first_seen_sublist.
  - rewrite Hl. apply (fmap_sublist to_d3), first_by_key_sublist.
Qed.

Lemma indexing_keeps_input_order_witness :
  exists r, preProcessData scenario_graph = Some r
    /\ nodes r `sublist_of` map node_id (data_nodes scenario_graph)
    /\ links r `sublist_of` map to_d3 (data_links scenario_graph).
Proof.
  eexists. split; [vm_compute; reflexivity|].
  apply (indexing_keeps_input_order scenario_graph). vm_compute. reflexivity.
Defined.









(** ** The messages of the simulation *)

Lemma length_copy_into (cache cur : list Q) :
  length (copy_into cache cur) = length cache.
Proof.
  unfold copy_into. rewrite length_app, length_take, length_drop. lia.
Qed.

Lemma lookup_copy_into (cache cur : list Q) i :
  i < length cache -> i < length cur -> copy_into cache cur !! i = cur !! i.
Proof.
  intros Hc Hi. unfold copy_into.
  rewrite lookup_app_l by (rewrite length_take; lia).
  by rewrite lookup_take_lt.
Qed.

Lemma copy_into_same_length (cache cur : list Q) :
  length cache = length cur -> copy_into cache cur = cur.
Proof.
  intros Hlen. unfold copy_into.
  rewrite Hlen, take_ge, drop_ge by lia. apply app_nil_r.
Qed.

(** X5: the first two ticks.  On a graph that has seen no tick, the tick
    numbered 1 only records its snapshot as the target: the rendered buffer,
    the cache and the frame handle are left as they are, and the interval
    measured is zero.  The tick numbered 2 then makes the first snapshot the
    rendered buffer and the cache, the second snapshot the target (a buffer
    of its own), requests a frame and measures the interval between the two
    ticks. *)
Theorem first_two_ticks (g : Graph) (t1 t2 : Z) (s1 s2 : list Q) :
  prevTickTime (perfInfo g) = 0%Z -> t1 <> 0%Z ->
  cachePositionStatus g = None ->
  (targetPositionStatus (on_tick t1 1 s1 g) = Some s1
   /\ currentPositionStatus (on_tick t1 1 s1 g) = currentPositionStatus g
   /\ cachePositionStatus (on_tick t1 1 s1 g) = None
   /\ rafId (on_tick t1 1 s1 g) = rafId g
   /\ intervalTime (perfInfo (on_tick t1 1 s1 g)) = 0%Z
   /\ layouting (perfInfo (on_tick t1 1 s1 g)) = true)
  /\ (targetPositionStatus (on_tick t2 2 s2 (on_tick t1 1 s1 g)) = Some s2
      /\ currentPositionStatus (on_tick t2 2 s2 (on_tick t1 1 s1 g)) = Some s1
      /\ cachePositionStatus (on_tick t2 2 s2 (on_tick t1 1 s1 g)) = Some s1
      /\ current_is_target (on_tick t2 2 s2 (on_tick t1 1 s1 g)) = false
      /\ rafId (on_tick t2 2 s2 (on_tick t1 1 s1 g)) = true
      /\ intervalTime (perfInfo (on_tick t2 2 s2 (on_tick t1 1 s1 g)))
         = (t2 - t1)%Z
      /\ prevTickTime (perfInfo (on_tick t2 2 s2 (on_tick t1 1 s1 g))) = t2).
Proof.
  intros Hp Ht1 Hc. split.
  - unfold on_tick. simpl. rewrite Hp. simpl.
    repeat split; try done. lia.
  - unfold on_tick. simpl. rewrite Hp. simpl.
    apply Z.eqb_neq in Ht1 as ->. rewrite Hc.
    assert (Hcache : copy_into (repeat 0%Q (length s1)) s1 = s1)
      by (apply copy_into_same_length, repeat_length).
    unfold startRender. simpl.
    destruct (rafId g) eqn:Hr; simpl; rewrite ?Hc, ?Hcache, ?Hr; done.
Qed.

Lemma first_two_ticks_witness :
  (targetPositionStatus (on_tick 1000 1 [0; 0]%Q (fresh_graph 1 500)) = Some [0; 0]%Q
   /\ currentPositionStatus (on_tick 1000 1 [0; 0]%Q (fresh_graph 1 500))
      = currentPositionStatus (fresh_graph 1 500)
   /\ cachePositionStatus (on_tick 1000 1 [0; 0]%Q (fresh_graph 1 500)) = None
   /\ rafId (on_tick 1000 1 [0; 0]%Q (fresh_graph 1 500)) = rafId (fresh_graph 1 500)
   /\ intervalTime (perfInfo (on_tick 1000 1 [0; 0]%Q (fresh_graph 1 500))) = 0%Z
   /\ layouting (perfInfo (on_tick 1000 1 [0; 0]%Q (fresh_graph 1 500))) = true)
  /\ (targetPositionStatus
        (on_tick 1010 2 [4; 2]%Q (on_tick 1000 1 [0; 0]%Q (fresh_graph 1 500)))
      = Some [4; 2]%Q
      /\ currentPositionStatus
           (on_tick 1010 2 [4; 2]%Q (on_tick 1000 1 [0; 0]%Q (fresh_graph 1 500)))
         = Some [0; 0]%Q
      /\ cachePositionStatus
           (on_tick 1010 2 [4; 2]%Q (on_tick 1000 1 [0; 0]%Q (fresh_graph 1 500)))
         = Some [0; 0]%Q
      /\ current_is_target
           (on_tick 1010 2 [4; 2]%Q (on_tick 1000 1 [0; 0]%Q (fresh_graph 1 500)))
         = false
      /\ rafId
           (on_tick 1010 2 [4; 2]%Q (on_tick 1000 1 [0; 0]%Q (fresh_graph 1 500)))
         = true
      /\ intervalTime
           (perfInfo
              (on_tick 1010 2 [4; 2]%Q (on_tick 1000 1 [0; 0]%Q (fresh_graph 1 500))))
         = (1010 - 1000)%Z
      /\ prevTickTime
           (perfInfo
              (on_tick 1010 2 [4; 2]%Q (on_tick 1000 1 [0; 0]%Q (fresh_graph 1 500))))
         = 1010%Z).
Proof.
  apply (first_two_ticks (fresh_graph 1 500) 1000 1010 [0; 0]%Q [4; 2]%Q);
    [reflexivity|lia|reflexivity].
Defined.

(** X6: a tick numbered 3 or more, on a graph whose rendered buffer and
    cache exist: the snapshot becomes the target, a buffer of its own; the
    rendered buffer is left as it is; the cache keeps its length and takes
    the cells of the rendered buffer, so that it is a copy of it when the
    two have one length; the frame handle is left as it is, and the interval
    measured is the time since the previous tick. *)
Theorem later_tick_caches_rendered (g : Graph) (now tick : Z)
    (snapshot cur cache : list Q) :
  tick <> 1%Z -> tick <> 2%Z ->
  prevTickTime (perfInfo g) <> 0%Z ->
  currentPositionStatus g = Some cur ->
  cachePositionStatus g = Some cache ->
  targetPositionStatus (on_tick now tick snapshot g) = Some snapshot
  /\ current_is_target (on_tick now tick snapshot g) = false
  /\ currentPositionStatus (on_tick now tick snapshot g) = Some cur
  /\ (exists cache',
        cachePositionStatus (on_tick now tick snapshot g) = Some cache'
        /\ length cache' = length cache
        /\ (forall i, i < length cache -> i < length cur -> cache' !! i = cur !! i)
        /\ (length cache = length cur -> cache' = cur))
  /\ rafId (on_tick now tick snapshot g) = rafId g
  /\ targetTick (perfInfo (on_tick now tick snapshot g)) = tick
  /\ intervalTime (perfInfo (on_tick now tick snapshot g))
     = (now - prevTickTime (perfInfo g))%Z
  /\ prevTickTime (perfInfo (on_tick now tick snapshot g)) = now.
Proof.
  intros H1 H2 Hp Hcur Hcache. unfold on_tick.
  apply Z.eqb_neq in H1 as ->. apply Z.eqb_neq in H2 as ->.
  apply Z.eqb_neq in Hp as ->. simpl. rewrite Hcur, Hcache.
  repeat split; try done.
  exists (copy_into cache cur). split; [done|].
  split; [apply length_copy_into|]. split; [apply lookup_copy_into|].
  apply copy_into_same_length.
Qed.

Lemma later_tick_caches_rendered_witness :
  targetPositionStatus (on_tick 1020 3 [9; 9]%Q threshold_graph) = Some [9; 9]%Q
  /\ current_is_target (on_tick 1020 3 [9; 9]%Q threshold_graph) = false
  /\ currentPositionStatus (on_tick 1020 3 [9; 9]%Q threshold_graph)
     = Some (repeat 0%Q 2000)
  /\ (exists cache',
        cachePositionStatus (on_tick 1020 3 [9; 9]%Q threshold_graph) = Some cache'
        /\ length cache' = length (repeat 0%Q 2000)
        /\ (forall i, i < length (repeat 0%Q 2000) -> i < length (repeat 0%Q 2000) ->
              cache' !! i = repeat 0%Q 2000 !! i)
        /\ (length (repeat 0%Q 2000) = length (repeat 0%Q 2000) ->
            cache' = repeat 0%Q 2000))
  /\ rafId (on_tick 1020 3 [9; 9]%Q threshold_graph) = rafId threshold_graph
  /\ targetTick (perfInfo (on_tick 1020 3 [9; 9]%Q threshold_graph)) = 3%Z
  /\ intervalTime (perfInfo (on_tick 1020 3 [9; 9]%Q threshold_graph))
     = (1020 - prevTickTime (perfInfo threshold_graph))%Z
  /\ prevTickTime (perfInfo (on_tick 1020 3 [9; 9]%Q threshold_graph)) = 1020%Z.
Proof.
  apply (later_tick_caches_rendered threshold_graph 1020 3 [9; 9]%Q
           (repeat 0%Q 2000) (repeat 0%Q 2000));
    [lia|lia|vm_compute; discriminate|vm_compute; reflexivity..].
Defined.

(** ** What a frame writes *)

Lemma interpolate_fields now g g1 :
  interpolate now g = Done g1 ->
  cachePositionStatus g1 = cachePositionStatus g
  /\ perfInfo g1 = perfInfo g
  /\ current_is_target g1 = current_is_target g
  /\ (current_is_target g = false ->
      targetPositionStatus g1 = targetPositionStatus g).
Proof.
  unfold interpolate. intros H.
  destruct (_ <=? _)%Z; [|by simplify_eq].
  destruct (currentPositionStatus g) as [[|x cur]|] eqn:Hcur;
    destruct (targetPositionStatus g) as [tgt|] eqn:Htgt;
    destruct (cachePositionStatus g) as [cache|] eqn:Hcache;
    try (by simplify_eq);
    destruct (blend_loop _ _ _ _ _ _) as [out| | |]; simpl in H;
    try done; injection H as <-; simpl;
    (repeat split; try done; by intros ->).
Qed.

Lemma snap_fields g g1 :
  snap_when_finished g = Done g1 ->
  cachePositionStatus g1 = cachePositionStatus g
  /\ perfInfo g1 = perfInfo g
  /\ targetPositionStatus g1 = targetPositionStatus g.
Proof.
  unfold snap_when_finished. intros H.
  destruct (layouting (perfInfo g)); [by simplify_eq|].
  destruct (currentPositionStatus g) as [cur|]; [|done].
  destruct (targetPositionStatus g) as [tgt|] eqn:Htgt; [|done].
  destruct (first_differs cur tgt); by simplify_eq.
Qed.

Lemma finish_frame_fields controls_update g1 g' f :
  finish_frame controls_update g1 = Done (g', f) ->
  cachePositionStatus g' = cachePositionStatus g1
  /\ perfInfo g' = perfInfo g1
  /\ targetPositionStatus g' = targetPositionStatus g1
  /\ currentPositionStatus g' = currentPositionStatus g1
  /\ rafId g' = true.
Proof.
  unfold finish_frame, startRender. intros [= <- <-]. simpl.
  destruct (rafId g1) eqn:Hr; simpl; rewrite ?Hr; done.
Qed.

(** X7: what a frame leaves alone.  When [render] returns, the cache buffer
    and the performance record are as they were, and so is the target
    buffer unless the rendered buffer and the target are one and the same
    array. *)
Theorem render_keeps_cache_and_target (controls_update : Camera -> Camera)
    (now : Z) (g g' : Graph) (f : Frame) :
  render controls_update now g = Done (g', f) ->
  cachePositionStatus g' = cachePositionStatus g
  /\ perfInfo g' = perfInfo g
  /\ (current_is_target g = false ->
      targetPositionStatus g' = targetPositionStatus g).
Proof.
  unfold render. intros H.
  destruct (begin_frame_fields g) as (Hp & _ & Ht & _ & Hca & Hal).
  destruct (if 1000 <? nodeCounts (perfInfo (begin_frame g))
            then render_blend now (begin_frame g)
            else render_direct (begin_frame g)) as [g1| | |] eqn:E; [|done..].
  simpl in H. apply finish_frame_fields in H as (-> & -> & -> & _ & _).
  destruct (1000 <? nodeCounts (perfInfo (begin_frame g))).
  - unfold render_blend in E.
    destruct (interpolate now (begin_frame g)) as [g0| | |] eqn:E0; [|done..].
    simpl in E. apply snap_fields in E as (-> & -> & ->).
    apply interpolate_fields in E0 as (-> & -> & _ & Htgt).
    rewrite Hal, Ht in Htgt. done.
  - destruct (render_direct_Done (begin_frame g)) as [E'|E'];
      rewrite E' in E; [done|]. injection E as <-. simpl. done.
Qed.

Lemma render_keeps_cache_and_target_witness :
  exists g' f,
    render (fun c => c) 1015 large_graph = Done (g', f)
    /\ cachePositionStatus g' = cachePositionStatus large_graph
    /\ perfInfo g' = perfInfo large_graph
    /\ (current_is_target large_graph = false ->
        targetPositionStatus g' = targetPositionStatus large_graph).
Proof.
  eexists _, _. split; [vm_compute; reflexivity|].
  eapply (render_keeps_cache_and_target (fun c => c) 1015 large_graph).
  vm_compute. reflexivity.
Defined.



(** After a layout whose ticks came 5 s apart: the frame at 8100 ms snaps the
    rendered buffer to the final snapshot, and the frame at 8200 ms, still
    within the interval, replaces the first cell of the target, 30, by
    66/5. *)
Example slow_layout_overwrites_final_snapshot :
  exists g1 f1 g2 f2 v,
    render (fun c => c) 8100 slow_graph = Done (g1, f1)
    /\ frame_positions f1 = Some (repeat 30%Q 2002)
    /\ current_is_target g1 = true
    /\ render (fun c => c) 8200 g1 = Done (g2, f2)
    /\ (targetPositionStatus g2 ≫= (fun l => l !! 0)) = Some v
    /\ (v == 66 # 5)%Q.
Proof.
  eexists _, _, _, _, _. split; [vm_compute; reflexivity|].
  split; [reflexivity|]. split; [reflexivity|].
  split; [vm_compute; reflexivity|]. split; reflexivity.
Qed.


(** X9: [render] always ends with a frame requested, whatever the handle was
    before; [stopRender] then cancels it, [startRender] on a graph with a
    frame requested and [stopRender] on a graph without one change nothing,
    and neither touches anything but the handle. *)
Theorem frame_handle (controls_update : Camera -> Camera) (now : Z) (g : Graph) :
  (forall g' f, render controls_update now g = Done (g', f) ->
     rafId g' = true /\ rafId (stopRender g') = false /\ startRender g' = g')
  /\ startRender (startRender g) = startRender g
  /\ stopRender (stopRender g) = stopRender g
  /\ rafId (startRender g) = true
  /\ rafId (stopRender g) = false
  /\ stopRender (startRender (stopRender g)) = stopRender g
  /\ startRender g = set_rafId true g
  /\ stopRender g = set_rafId false g.
Proof.
  split.
  - intros g' f H. unfold render in H.
    destruct (if 1000 <? nodeCounts (perfInfo (begin_frame g))
              then render_blend now (begin_frame g)
              else render_direct (begin_frame g)) as [g1| | |]; [|done..].
    simpl in H. apply finish_frame_fields in H as (_ & _ & _ & _ & Hr).
    unfold stopRender, startRender. rewrite Hr. done.
  - unfold startRender, stopRender, set_rafId.
    destruct g as [pd pi cam t c ca al [] h sc]; simpl; done.
Qed.

(** ** More on the viewport culler *)

Local Open Scope Q_scope.

Lemma in_rect_zoom_out tan_half_fov g z x y :
  0 <= tan_half_fov -> 0 <= aspect (camera g) -> cam_z (camera g) <= z ->
  in_rect (getViewPortRect tan_half_fov g) (Some x) (Some y) = true ->
  in_rect (getViewPortRect tan_half_fov (zoom_to z g)) (Some x) (Some y) = true.
Proof.
  intros Ht Ha Hz. rewrite !in_rect_spec. simpl.
  assert (H1 : cam_z (camera g) * tan_half_fov <= z * tan_half_fov)
    by (by apply Qmult_le_compat_r).
  assert (H2 : cam_z (camera g) * tan_half_fov * aspect (camera g)
               <= z * tan_half_fov * aspect (camera g))
    by (by apply Qmult_le_compat_r).
  intros [[? ?] [? ?]]. repeat split; lra.
Qed.

(** X10: zooming out never hides a node.  With a tangent and an aspect ratio
    that are not negative, every node that [getAllVisibleNodes] returns is
    returned again, at the same position, once the camera is higher above
    the same point. *)
Theorem zoom_out_keeps_visible (tan_half_fov : Q) (g : Graph) (z : Q)
    (tgt : list Q) :
  0 <= tan_half_fov -> 0 <= aspect (camera g) -> cam_z (camera g) <= z ->
  nodeCounts (perfInfo g) = length (nodes (processedData g)) ->
  targetPositionStatus g = Some tgt ->
  exists vs vs',
    getAllVisibleNodes tan_half_fov g = Done vs
    /\ getAllVisibleNodes tan_half_fov (zoom_to z g) = Done vs'
    /\ forall v, v ∈ vs -> v ∈ vs'.
Proof.
  intros Ht Ha Hz Hn Htgt.
  destruct (visible_from_spec (getViewPortRect tan_half_fov g)
              (nodes (processedData g)) tgt 0 (nodeCounts (perfInfo g)))
    as (vs & Hvs & Hin); [lia|].
  destruct (visible_from_spec (getViewPortRect tan_half_fov (zoom_to z g))
              (nodes (processedData g)) tgt 0 (nodeCounts (perfInfo g)))
    as (vs' & Hvs' & Hin'); [lia|].
  exists vs, vs'. split; [|split].
  - unfold getAllVisibleNodes. rewrite Htgt.
    destruct (nodeCounts (perfInfo g)); [|done]. simpl in Hvs. done.
  - unfold getAllVisibleNodes. simpl. rewrite Htgt.
    destruct (nodeCounts (perfInfo g)); [|done]. simpl in Hvs'. done.
  - intros v (j & Hj & Hid & Hx & Hy & Hr)%Hin. apply Hin'.
    exists j. repeat split; try done; try lia.
    by apply in_rect_zoom_out.
Qed.

Lemma zoom_out_keeps_visible_witness :
  exists vs vs',
    getAllVisibleNodes (1 # 2) culling_graph = Done vs
    /\ getAllVisibleNodes (1 # 2) (zoom_to 40 culling_graph) = Done vs'
    /\ forall v, v ∈ vs -> v ∈ vs'.
Proof.
  apply (zoom_out_keeps_visible (1 # 2) culling_graph 40
           [10; 0; 0; -10; 10 + (1 # 1000); 0]);
    (reflexivity || (vm_compute; discriminate)).
Defined.

Local Close Scope Q_scope.

Lemma visible_from_ids r ids tgt i n vs :
  visible_from r ids tgt i n = Done vs ->
  map vis_id vs `sublist_of` drop i ids /\ length vs <= n.
Proof.
  revert i vs. induction n as [|n IH]; intros i vs H; cbn [visible_from] in H.
  - injection H as <-. split; [apply sublist_nil_l|done].
  - assert (Hdrop : drop (S i) ids `sublist_of` drop i ids).
    { replace (S i) with (i + 1) by lia. rewrite <- drop_drop. apply sublist_drop. }
    destruct (in_rect r (tgt !! (i * 2)) (tgt !! (i * 2 + 1))).
    + destruct (ids !! i) as [k|] eqn:Hk; [|done].
      destruct (tgt !! (i * 2)) as [x|]; [|done].
      destruct (tgt !! (i * 2 + 1)) as [y|]; [|done].
      destruct (visible_from r ids tgt (S i) n) as [rest| | |] eqn:E; [|done..].
      simpl in H. injection H as <-. destruct (IH _ _ E) as [Hs Hl].
      split; [|simpl; lia]. simpl.
      rewrite (drop_S _ _ _ Hk). by apply sublist_skip.
    + destruct (IH _ _ H) as [Hs Hl]. split; [|lia].
      by etransitivity.
Qed.

(** X11: the nodes that [getAllVisibleNodes] returns come in the order of
    their indices: their ids are a subsequence of the indexed ids, there are
    at most [nodeCounts] of them, and none comes twice when no id is
    indexed twice. *)
Theorem visible_nodes_in_index_order (tan_half_fov : Q) (g : Graph)
    (vs : list VisibleNode) :
  getAllVisibleNodes tan_half_fov g = Done vs ->
  map vis_id vs `sublist_of` nodes (processedData g)
  /\ length vs <= nodeCounts (perfInfo g)
  /\ (NoDup (nodes (processedData g)) -> NoDup vs).
Proof.
  unfold getAllVisibleNodes. intros H.
  assert (Hsub : map vis_id vs `sublist_of` nodes (processedData g)
                 /\ length vs <= nodeCounts (perfInfo g)).
  { destruct (nodeCounts (perfInfo g)) as [|n] eqn:Hn.
    - injection H as <-. split; [apply sublist_nil_l|done].
    - destruct (targetPositionStatus g) as [tgt|]; [|done].
      apply visible_from_ids in H. by rewrite drop_0 in H. }
  destruct Hsub as [Hs Hl]. split; [done|]. split; [done|].
  intros Hnd. apply (NoDup_fmap_1 vis_id). by eapply sublist_NoDup.
Qed.

Lemma visible_nodes_in_index_order_witness :
  exists vs,
    getAllVisibleNodes (1 # 2) culling_graph = Done vs
    /\ map vis_id vs `sublist_of` nodes (processedData culling_graph)
    /\ length vs <= nodeCounts (perfInfo culling_graph)
    /\ (NoDup (nodes (processedData culling_graph)) -> NoDup vs).
Proof.
  eexists. split; [reflexivity|].
  apply (visible_nodes_in_index_order (1 # 2) culling_graph). reflexivity.
Defined.

(** ** More on highlighting *)

Lemma indexed_ids d r k :
  preProcessData d = Some r -> is_Some (nodeInfoMap r !! k) <-> k ∈ nodes r.
Proof.
  intros Hr.
  pose proof (preProcessData_Some d r Hr) as (Hn & Hm & _).
  rewrite Hm, Hn.
  by rewrite <- (node_inv_dom _ _ (node_loop_inv (data_nodes d))).
Qed.

Lemma indexed_endpoints d r l :
  preProcessData d = Some r -> l ∈ links r ->
  link_source l ∈ nodes r /\ link_target l ∈ nodes r.
Proof.
  intros Hr Hin.
  pose proof (preProcessData_Some d r Hr) as (_ & _ & Hl & _ & Hnd & _).
  rewrite Hl in Hin. apply list_elem_of_fmap in Hin as (e & -> & He).
  rewrite Forall_forall in Hnd. specialize (Hnd e He). unfold dangling in Hnd.
  rewrite <- !(indexed_ids d r) by done. simpl.
  destruct (nodeInfoMap r !! source e); [|tauto].
  destruct (nodeInfoMap r !! target e); [|tauto].
  split; by eexists.
Qed.

Lemma find_id_Some (i : string) ids :
  i ∈ ids -> find (fun e => String.eqb e i) ids = Some i.
Proof.
  induction ids as [|x ids IH]; [by intros ?%elem_of_nil|].
  intros Hin. simpl. destruct (String.eqb_spec x i) as [->|Hne]; [done|].
  apply elem_of_cons in Hin as [->|Hin]; [done|]. by apply IH.
Qed.

Lemma find_id_None (i : string) ids :
  i ∉ ids -> find (fun e => String.eqb e i) ids = None.
Proof.
  induction ids as [|x ids IH]; [done|].
  intros Hin. simpl. apply not_elem_of_cons in Hin as [Hne Hin].
  destruct (String.eqb_spec x i) as [->|_]; [done|]. by apply IH.
Qed.

Lemma all_indexed_spec nim ids :
  all_indexed nim ids = true <-> forall k, k ∈ ids -> is_Some (nim !! k).
Proof.
  unfold all_indexed. rewrite forallb_forall. split.
  - intros H k Hk%list_elem_of_In. specialize (H k Hk).
    destruct (nim !! k); [by eexists|done].
  - intros H k Hk%list_elem_of_In. destruct (H k Hk) as [v ->]. done.
Qed.

(** X12: which nodes and links a highlight shows.  [highlight] of an id
    that is not the highlighted one appends four objects to the scene.  The
    lines and the arrows are built on exactly the retained links that touch
    the id, in their order; the points are one per such link, then the id
    itself, so a neighbour joined by two links is there twice; and the
    relation is symmetric: a link from [a] to [b] puts [b] among the points
    of [a] and [a] among the points of [b]. *)
Theorem highlight_shows_neighbours (i : string) (g g1 : Graph) :
  highlighted g <> Some i -> highlight i g = Done g1 ->
  exists oN oL oA oT,
    scene g1 = scene g ++ [oN; oL; oA; oT]
    /\ obj_links oL = filter (fun l => touches i l = true) (links (processedData g))
    /\ obj_links oA = obj_links oL
    /\ length (obj_nodes oN) = S (length (obj_links oL))
    /\ last (obj_nodes oN) = Some i
    /\ obj_nodes oT = [i]
    /\ (forall l, l ∈ obj_links oL <->
          l ∈ links (processedData g) /\ (link_source l = i \/ link_target l = i))
    /\ (forall l, l ∈ links (processedData g) ->
          (link_source l = i -> link_target l ∈ obj_nodes oN)
          /\ (link_target l = i -> link_source l ∈ obj_nodes oN))
    /\ (forall k, k ∈ obj_nodes oN ->
          k = i \/ exists l, l ∈ obj_links oL
                     /\ (k = link_source l \/ k = link_target l)).
Proof.
  intros Hne. unfold highlight. rewrite decide_False by done.
  unfold addHighLight.
  destruct (find _ _) as [sourceNode|] eqn:Hf; [|done].
  apply find_some in Hf as [_ ->%String.eqb_eq].
  destruct (currentPositionStatus g) as [cur|]; [|done].
  destruct (all_indexed _ _); [|done].
  cbn [bind]. intros [= <-]. cbn [scene set_highlight].
  assert (Htouch : forall l,
            l ∈ filter (fun l => touches i l = true) (links (processedData g))
            <-> l ∈ links (processedData g)
                /\ (link_source l = i \/ link_target l = i)).
  { intros l. rewrite list_elem_of_filter. unfold touches.
    rewrite orb_true_iff, !String.eqb_eq. tauto. }
  do 4 eexists. split; [reflexivity|]. cbn [obj_links obj_nodes].
  split; [done|]. split; [done|].
  split; [by rewrite length_app, length_map, Nat.add_1_r|].
  split; [by rewrite last_snoc|]. split; [done|]. split; [exact Htouch|]. split.
  - intros l Hl. split; intros He.
    + destruct (String.eqb_spec (link_target l) i) as [Ht|Ht].
      * rewrite Ht. apply elem_of_app. right. by apply list_elem_of_singleton.
      * apply elem_of_app. left.
        change (map ?f ?x) with (f <$> x). apply list_elem_of_fmap.
        exists l. split; [|apply Htouch; auto].
        by destruct (String.eqb_spec (link_target l) i).
    + apply elem_of_app. left.
      change (map ?f ?x) with (f <$> x). apply list_elem_of_fmap.
      exists l. split; [|apply Htouch; auto].
      by destruct (String.eqb_spec (link_target l) i).
  - intros k [Hk|Hk%list_elem_of_singleton]%elem_of_app; [|by left].
    right. change (map ?f ?x) with (f <$> x) in Hk.
    apply list_elem_of_fmap in Hk as (l & -> & Hl).
    exists l. split; [done|].
    destruct (String.eqb (link_target l) i); auto.
Qed.

Lemma highlight_shows_neighbours_witness :
  exists g1 oN oL oA oT,
    highlight "a" hover_graph = Done g1
    /\ scene g1 = scene hover_graph ++ [oN; oL; oA; oT]
    /\ obj_links oL
       = filter (fun l => touches "a" l = true) (links (processedData hover_graph))
    /\ obj_links oA = obj_links oL
    /\ length (obj_nodes oN) = S (length (obj_links oL))
    /\ last (obj_nodes oN) = Some "a"
    /\ obj_nodes oT = ["a"]
    /\ (forall l, l ∈ obj_links oL <->
          l ∈ links (processedData hover_graph)
          /\ (link_source l = "a" \/ link_target l = "a"))
    /\ (forall l, l ∈ links (processedData hover_graph) ->
          (link_source l = "a" -> link_target l ∈ obj_nodes oN)
          /\ (link_target l = "a" -> link_source l ∈ obj_nodes oN))
    /\ (forall k, k ∈ obj_nodes oN ->
          k = "a" \/ exists l, l ∈ obj_links oL
                       /\ (k = link_source l \/ k = link_target l)).
Proof.
  destruct (highlight_shows_neighbours "a" hover_graph
              (match highlight "a" hover_graph with Done g1 => g1 | _ => hover_graph end))
    as (oN & oL & oA & oT & H); [discriminate|reflexivity|].
  eexists _, oN, oL, oA, oT. split; [reflexivity|exact H].
Defined.

(** X13: on data that [preProcessData] has indexed, and once positions are
    there, [highlight] of an id that is not the highlighted one succeeds
    when the id is an indexed node and throws a TypeError, leaving the scene
    as it was, when it is not. *)
Theorem highlight_defined_iff_indexed (d : GraphData) (g : Graph) (i : string)
    (cur : list Q) :
  preProcessData d = Some (processedData g) ->
  currentPositionStatus g = Some cur ->
  highlighted g <> Some i ->
  (i ∈ nodes (processedData g) -> exists g1, highlight i g = Done g1)
  /\ (i ∉ nodes (processedData g) -> highlight i g = TypeError).
Proof.
  intros Hr Hcur Hne. unfold highlight. rewrite decide_False by done.
  unfold addHighLight. split; intros Hi.
  - rewrite (find_id_Some _ _ Hi), Hcur.
    match goal with |- context [all_indexed ?m ?l] =>
      assert (Hall : all_indexed m l = true) end.
    { apply all_indexed_spec. intros k Hk. apply (indexed_ids d); [done|].
      apply elem_of_app in Hk as [Hk|Hk%list_elem_of_singleton]; [|by subst].
      change (map ?f ?x) with (f <$> x) in Hk.
      apply list_elem_of_fmap in Hk as (l & -> & [_ Hl]%list_elem_of_filter).
      destruct (indexed_endpoints d _ l Hr Hl).
      by destruct (String.eqb (link_target l) i). }
    rewrite Hall. by eexists.
  - by rewrite (find_id_None _ _ Hi).
Qed.

Lemma highlight_defined_iff_indexed_witness :
  ("a" ∈ nodes (processedData hover_graph) ->
     exists g1, highlight "a" hover_graph = Done g1)
  /\ ("a" ∉ nodes (processedData hover_graph) ->
     highlight "a" hover_graph = TypeError).
Proof.
  apply (highlight_defined_iff_indexed hover_data hover_graph "a"
           [0; 0; 10; 0; 20; 0]%Q).
  - vm_compute. reflexivity.
  - reflexivity.
  - discriminate.
Defined.

Lemma remove_by_name_sublist n sc : remove_by_name n sc `sublist_of` sc.
Proof.
  induction sc as [|o sc IH]; simpl; [done|].
  destruct (String.eqb (obj_name o) n); [by apply sublist_cons|by apply sublist_skip].
Qed.

Lemma remove_by_name_length n sc : length sc <= S (length (remove_by_name n sc)).
Proof.
  induction sc as [|o sc IH]; simpl; [lia|].
  destruct (String.eqb (obj_name o) n); simpl; lia.
Qed.

Lemma remove_by_name_keeps n sc o :
  o ∈ sc -> obj_name o <> n -> o ∈ remove_by_name n sc.
Proof.
  intros Hin Hne. induction sc as [|o' sc IH]; [done|]. simpl.
  apply elem_of_cons in Hin as [->|Hin].
  - destruct (String.eqb_spec (obj_name o') n); [done|]. apply elem_of_cons. by left.
  - destruct (String.eqb_spec (obj_name o') n); [done|].
    apply elem_of_cons. right. by apply IH.
Qed.

Lemma count_named_cons n o sc :
  count_named n (o :: sc)
  = (if decide (obj_name o = n) then 1 else 0) + count_named n sc.
Proof.
  unfold count_named. cbn [map]. rewrite filter_cons.
  by destruct (decide (obj_name o = n)).
Qed.

Lemma count_named_app n sc1 sc2 :
  count_named n (sc1 ++ sc2) = count_named n sc1 + count_named n sc2.
Proof. unfold count_named. by rewrite map_app, filter_app, length_app. Qed.

Lemma count_named_remove_other n m sc :
  n <> m -> count_named n (remove_by_name m sc) = count_named n sc.
Proof.
  intros Hne. induction sc as [|o sc IH]; [done|]. cbn [remove_by_name].
  destruct (String.eqb_spec (obj_name o) m) as [Hm|Hm].
  - rewrite count_named_cons, decide_False by congruence. done.
  - by rewrite !count_named_cons, IH.
Qed.

Lemma count_named_remove n sc :
  count_named n (remove_by_name n sc) = pred (count_named n sc).
Proof.
  induction sc as [|o sc IH]; [done|]. cbn [remove_by_name].
  destruct (String.eqb_spec (obj_name o) n) as [Hm|Hm].
  - by rewrite count_named_cons, decide_True.
  - by rewrite !count_named_cons, IH, decide_False.
Qed.

(** X14: [unhighlight] removes at most four children, one of each of the
    names ["hlNodes"], ["hlLines"], ["hlText"] and ["hlArrows"], the first
    of each: what is left keeps its order, every child of another name is
    still there, and as many children of any other name as before; the
    highlighted id is cleared and nothing else of the graph changes. *)
Theorem unhighlight_removes_only_its_names (g : Graph) :
  scene (unhighlight g) `sublist_of` scene g
  /\ length (scene g) <= length (scene (unhighlight g)) + 4
  /\ (forall o, o ∈ scene g -> obj_name o ∉ unhighlight_names ->
        o ∈ scene (unhighlight g))
  /\ (forall n, count_named n (scene (unhighlight g))
        = if decide (n ∈ unhighlight_names) then pred (count_named n (scene g))
          else count_named n (scene g))
  /\ highlighted (unhighlight g) = None
  /\ processedData (unhighlight g) = processedData g
  /\ currentPositionStatus (unhighlight g) = currentPositionStatus g
  /\ rafId (unhighlight g) = rafId g.
Proof.
  unfold unhighlight. cbn [scene set_highlight highlighted processedData
                           currentPositionStatus rafId].
  split; [|split; [|split; [|split]]]; [| | | |done].
  - repeat (etransitivity; [apply remove_by_name_sublist|]). done.
  - pose proof (remove_by_name_length "hlNodes" (scene g)).
    pose proof (remove_by_name_length "hlLines"
                  (remove_by_name "hlNodes" (scene g))).
    pose proof (remove_by_name_length "hlText"
                  (remove_by_name "hlLines" (remove_by_name "hlNodes" (scene g)))).
    pose proof (remove_by_name_length "hlArrows"
                  (remove_by_name "hlText"
                     (remove_by_name "hlLines" (remove_by_name "hlNodes" (scene g))))).
    lia.
  - intros o Hin Hn. unfold unhighlight_names in Hn.
    rewrite !not_elem_of_cons in Hn. destruct Hn as (H1 & H2 & H3 & H4 & _).
    by repeat apply remove_by_name_keeps.
  - intros n. unfold unhighlight_names.
    destruct (decide (n = "hlArrows")) as [->|H4].
    { rewrite count_named_remove, !count_named_remove_other by done.
      by rewrite decide_True by (rewrite !elem_of_cons; auto). }
    rewrite count_named_remove_other by done.
    destruct (decide (n = "hlText")) as [->|H3].
    { rewrite count_named_remove, !count_named_remove_other by done.
      by rewrite decide_True by (rewrite !elem_of_cons; auto). }
    rewrite count_named_remove_other by done.
    destruct (decide (n = "hlLines")) as [->|H2].
    { rewrite count_named_remove, !count_named_remove_other by done.
      by rewrite decide_True by (rewrite !elem_of_cons; auto). }
    rewrite count_named_remove_other by done.
    destruct (decide (n = "hlNodes")) as [->|H1].
    { rewrite count_named_remove.
      by rewrite decide_True by (rewrite !elem_of_cons; auto). }
    rewrite count_named_remove_other by done.
    rewrite decide_False; [done|].
    rewrite !not_elem_of_cons. repeat split; try done. apply not_elem_of_nil.
Qed.

(** X15: what a hover leaves behind.  After [highlight] of an id that is not
    the highlighted one, followed by [unhighlight], the scene holds one more
    child named ["hlLine"] and one more named ["hlArrow"] than before, and
    as many named ["hlNodes"] and ["hlText"] as before: the segments and
    the arrows of every hover stay in the scene. *)
Theorem hover_cycle_leaves_lines (i : string) (g g1 : Graph) :
  highlighted g <> Some i -> highlight i g = Done g1 ->
  count_named "hlLine" (scene (unhighlight g1))
  = S (count_named "hlLine" (scene g))
  /\ count_named "hlArrow" (scene (unhighlight g1))
     = S (count_named "hlArrow" (scene g))
  /\ count_named "hlNodes" (scene (unhighlight g1))
     = count_named "hlNodes" (scene g)
  /\ count_named "hlText" (scene (unhighlight g1))
     = count_named "hlText" (scene g)
  /\ highlighted (unhighlight g1) = None.
Proof.
  intros Hne Hh.
  destruct (highlight_only_adds i g g1 Hne Hh) as (_ & added & Hsc & Hnames & _).
  assert (HL : count_named "hlLine" added = 1)
    by (unfold count_named; by rewrite Hnames).
  assert (HA : count_named "hlArrow" added = 1)
    by (unfold count_named; by rewrite Hnames).
  assert (HN : count_named "hlNodes" added = 1)
    by (unfold count_named; by rewrite Hnames).
  assert (HT : count_named "hlText" added = 1)
    by (unfold count_named; by rewrite Hnames).
  unfold unhighlight. cbn [scene set_highlight highlighted]. rewrite Hsc.
  repeat split.
  - rewrite !count_named_remove_other by done.
    rewrite count_named_app, HL. lia.
  - rewrite !count_named_remove_other by done.
    rewrite count_named_app, HA. lia.
  - rewrite !count_named_remove_other by done.
    rewrite count_named_remove, count_named_app, HN. lia.
  - rewrite (count_named_remove_other _ "hlArrows") by done.
    rewrite count_named_remove, !count_named_remove_other by done.
    rewrite count_named_app, HT. lia.
Qed.

Lemma hover_cycle_leaves_lines_witness :
  exists g1,
    highlight "a" hover_graph = Done g1
    /\ count_named "hlLine" (scene (unhighlight g1))
       = S (count_named "hlLine" (scene hover_graph))
    /\ count_named "hlArrow" (scene (unhighlight g1))
       = S (count_named "hlArrow" (scene hover_graph))
    /\ count_named "hlNodes" (scene (unhighlight g1))
       = count_named "hlNodes" (scene hover_graph)
    /\ count_named "hlText" (scene (unhighlight g1))
       = count_named "hlText" (scene hover_graph)
    /\ highlighted (unhighlight g1) = None.
Proof.
  eexists. split; [reflexivity|].
  apply (hover_cycle_leaves_lines "a" hover_graph); [discriminate|reflexivity].
Defined.

(** ** The buffers of the base meshes *)












Lemma update_lines_short pd pos i n a :
  i <= length (links pd) < i + n ->
  (forall l, l ∈ links pd ->
     is_Some (nodeInfoMap pd !! link_source l)
     /\ is_Some (nodeInfoMap pd !! link_target l)) ->
  update_lines pd pos i n a = TypeError.
Proof.
  intros Hn Hall. revert i a Hn. induction n as [|n IH]; intros i a Hn; [lia|].
  cbn [update_lines].
  destruct (links pd !! i) as [l|] eqn:Hl; [|done].
  destruct (Hall l) as [[s Hs] [t Ht]]; [by eapply list_elem_of_lookup_2|].
  rewrite Hs, Ht. apply IH. apply lookup_lt_Some in Hl. lia.
Qed.



Lemma init_Done d cam shared g m :
  init d cam shared = Done (g, m) ->
  preProcessData d = Some (processedData g)
  /\ nodeCounts (perfInfo g) = length (nodes (processedData g))
  /\ linkCounts (perfInfo g) = length (links (processedData g))
  /\ prevTickTime (perfInfo g) = prevTickTime shared
  /\ intervalTime (perfInfo g) = intervalTime shared
  /\ layouting (perfInfo g) = layouting shared.
Proof.
  unfold init. destruct (preProcessData d) as [pd|]; [|done].
  unfold prepareBasicMesh.
  destruct (park_nodes _ _ _ _ _) as [ps| | |]; [|done..]. cbn [bind].
  destruct (park_lines _ _ _ _ _) as [lc| | |]; [|done..]. cbn [bind].
  intros [= <- <-]. done.
Qed.

(** X18: two graphs on one page.  All instances write their counts into the
    one [perfInfo] object, so after a second graph is constructed the first
    one, whose indexed data are its own, reads the node and link counts of
    the second; when the second graph has more links than the first,
    [updatePosition] of the first one throws a TypeError. *)
Theorem second_instance_breaks_first (d1 d2 : GraphData) (cam1 cam2 : Camera)
    (shared1 shared2 : GraphPerfInfo) (g1 g2 : Graph) (m1 m2 : Meshes) :
  init d1 cam1 shared1 = Done (g1, m1) ->
  init d2 cam2 shared2 = Done (g2, m2) ->
  nodeCounts (perfInfo (with_shared (perfInfo g2) g1))
  = length (nodes (processedData g2))
  /\ linkCounts (perfInfo (with_shared (perfInfo g2) g1))
     = length (links (processedData g2))
  /\ processedData (with_shared (perfInfo g2) g1) = processedData g1
  /\ (length (links (processedData g1)) < length (links (processedData g2)) ->
      forall pos, updatePosition (with_shared (perfInfo g2) g1) pos m1 = TypeError).
Proof.
  intros (Hd1 & _)%init_Done (Hd2 & Hn2 & Hl2 & _)%init_Done.
  split; [done|]. split; [done|]. split; [done|].
  intros Hlt pos. unfold updatePosition.
  change (perfInfo (with_shared (perfInfo g2) g1)) with (perfInfo g2).
  change (processedData (with_shared (perfInfo g2) g1)) with (processedData g1).
  rewrite update_lines_short; [done|rewrite Hl2; lia|].
  intros l Hl. destruct (indexed_endpoints d1 _ l Hd1 Hl).
  by rewrite !(indexed_ids d1).
Qed.

Lemma second_instance_breaks_first_witness :
  exists g1 m1 g2 m2,
    init hover_data default_camera GRAPH_DEFAULT_PERF_INFO = Done (g1, m1)
    /\ init triangle_data default_camera hover_perfInfo = Done (g2, m2)
    /\ nodeCounts (perfInfo (with_shared (perfInfo g2) g1))
       = length (nodes (processedData g2))
    /\ linkCounts (perfInfo (with_shared (perfInfo g2) g1))
       = length (links (processedData g2))
    /\ processedData (with_shared (perfInfo g2) g1) = processedData g1
    /\ (length (links (processedData g1)) < length (links (processedData g2)) ->
        forall pos, updatePosition (with_shared (perfInfo g2) g1) pos m1 = TypeError).
Proof.
  eexists _, _, _, _.
  split; [vm_compute; reflexivity|]. split; [vm_compute; reflexivity|].
  eapply (second_instance_breaks_first hover_data triangle_data default_camera
            default_camera GRAPH_DEFAULT_PERF_INFO hover_perfInfo);
    vm_compute; reflexivity.
Defined.

(** ** Avatars *)

Lemma has_name_count n sc : has_name n sc = true <-> 1 <= count_named n sc.
Proof.
  induction sc as [|o sc IH]; [cbn; split; [done|lia]|].
  rewrite count_named_cons. cbn [has_name existsb]. rewrite orb_true_iff.
  fold (has_name n sc). rewrite IH, String.eqb_eq.
  destruct (decide (obj_name o = n)); split; try lia; tauto.
Qed.

Lemma has_name_snoc n sc o :
  has_name n (sc ++ [o]) = has_name n sc || String.eqb (obj_name o) n.
Proof. unfold has_name. rewrite existsb_app. simpl. by rewrite orb_false_r. Qed.

Lemma avatar_name_inj id1 id2 : avatar_name id1 = avatar_name id2 -> id1 = id2.
Proof. unfold avatar_name. cbn. by intros [= H]. Qed.

Lemma generateAvaPoint_fields id x y s :
  throttleTimer (generateAvaPoint id x y s) = throttleTimer s
  /\ timer_armed (generateAvaPoint id x y s) = timer_armed s
  /\ requested (generateAvaPoint id x y s) = requested s
  /\ imageTexture (generateAvaPoint id x y s) = imageTexture s
  /\ image_cleared (generateAvaPoint id x y s) = image_cleared s
  /\ processedData (av_graph (generateAvaPoint id x y s)) = processedData (av_graph s)
  /\ currentPositionStatus (av_graph (generateAvaPoint id x y s))
     = currentPositionStatus (av_graph s)
  /\ scene (av_graph s) `prefix_of` scene (av_graph (generateAvaPoint id x y s)).
Proof.
  unfold generateAvaPoint. cbn. repeat split.
  destruct (has_name _ _); [done|]. by apply prefix_app_r.
Qed.

Lemma generateAvaPoint_count id x y s n :
  count_named n (scene (av_graph (generateAvaPoint id x y s)))
  = if decide (n = avatar_name id)
    then Nat.max 1 (count_named n (scene (av_graph s)))
    else count_named n (scene (av_graph s)).
Proof.
  unfold generateAvaPoint. cbn [av_graph set_av_graph scene set_highlight].
  destruct (has_name (avatar_name id) (scene (av_graph s))) eqn:Hh.
  - destruct (decide (n = avatar_name id)) as [->|]; [|done].
    apply has_name_count in Hh. lia.
  - rewrite count_named_app, count_named_cons. cbn [obj_name avatar].
    destruct (decide (n = avatar_name id)) as [->|Hne].
    + rewrite decide_True by done.
      assert (count_named (avatar_name id) (scene (av_graph s)) = 0).
      { destruct (count_named (avatar_name id) (scene (av_graph s))) eqn:Hc; [done|].
        assert (has_name (avatar_name id) (scene (av_graph s)) = true)
          by (apply has_name_count; lia).
        congruence. }
      cbn. lia.
    + rewrite decide_False by done. cbn. lia.
Qed.

(** X19: one avatar per node.  [generateAvaPoint] adds the avatar of the
    node at the end of the scene when the scene has none of that name and
    leaves the scene alone otherwise; the avatar keeps the position of the
    first call; and a second call, with whatever position, changes
    nothing. *)
Theorem avatar_added_once (id : string) (x y : option Q) (s : Avatars) :
  let s' := generateAvaPoint id x y s in
  scene (av_graph s')
  = (if has_name (avatar_name id) (scene (av_graph s)) then scene (av_graph s)
     else scene (av_graph s) ++ [avatar id])
  /\ count_named (avatar_name id) (scene (av_graph s'))
     = Nat.max 1 (count_named (avatar_name id) (scene (av_graph s)))
  /\ (forall n, n <> avatar_name id ->
        count_named n (scene (av_graph s')) = count_named n (scene (av_graph s)))
  /\ imagePoint s' !! id = Some (default (x, y) (imagePoint s !! id))
  /\ (forall id', id' <> id -> imagePoint s' !! id' = imagePoint s !! id')
  /\ forall x' y', generateAvaPoint id x' y' s' = s'.
Proof.
  cbv zeta. split; [done|]. split.
  { by rewrite generateAvaPoint_count, decide_True. } split.
  { intros n Hn. by rewrite generateAvaPoint_count, decide_False. } split.
  { unfold generateAvaPoint. cbn [imagePoint set_av_graph set_images].
    destruct (imagePoint s !! id) eqn:Hp; [done|]. by rewrite lookup_insert_eq. }
  split.
  { intros id' Hne. unfold generateAvaPoint. cbn [imagePoint set_av_graph set_images].
    destruct (imagePoint s !! id); [done|]. by rewrite lookup_insert_ne. }
  intros x' y'. unfold generateAvaPoint.
  cbn [imagePoint set_av_graph set_images av_graph scene set_highlight highlighted
       imageTexture image_cleared requested throttleTimer timer_armed].
  assert (Hp : forall m : gmap string (option Q * option Q),
            match (match m !! id with Some _ => m | None => <[id := (x, y)]> m end) !! id
            with
            | Some _ => match m !! id with Some _ => m | None => <[id := (x, y)]> m end
            | None => <[id := (x', y')]>
                        (match m !! id with Some _ => m | None => <[id := (x, y)]> m end)
            end
            = match m !! id with Some _ => m | None => <[id := (x, y)]> m end).
  { intros m. destruct (m !! id) eqn:Hm; [by rewrite Hm|]. by rewrite lookup_insert_eq. }
  rewrite Hp.
  destruct (has_name (avatar_name id) (scene (av_graph s))) eqn:Hh.
  - by rewrite Hh.
  - rewrite has_name_snoc, Hh. cbn [obj_name avatar orb].
    by rewrite String.eqb_refl.
Qed.

Lemma load_visible_Done vs s cur :
  (forall v, v ∈ vs ->
     is_Some (nodeInfoMap (processedData (av_graph s)) !! vis_id v)) ->
  currentPositionStatus (av_graph s) = Some cur ->
  exists s',
    load_visible vs s = Done s'
    /\ throttleTimer s' = throttleTimer s
    /\ timer_armed s' = timer_armed s
    /\ scene (av_graph s) `prefix_of` scene (av_graph s')
    /\ (one_avatar_each s -> one_avatar_each s').
Proof.
  revert s. induction vs as [|v vs IH]; intros s Hall Hcur.
  - exists s. by repeat split.
  - cbn [load_visible].
    destruct (Hall v) as [info Hi]; [apply elem_of_cons; by left|].
    rewrite Hi, Hcur.
    assert (Hrest : forall s1,
              processedData (av_graph s1) = processedData (av_graph s) ->
              currentPositionStatus (av_graph s1) = Some cur ->
              throttleTimer s1 = throttleTimer s ->
              timer_armed s1 = timer_armed s ->
              scene (av_graph s) `prefix_of` scene (av_graph s1) ->
              (one_avatar_each s -> one_avatar_each s1) ->
              exists s',
                load_visible vs s1 = Done s'
                /\ throttleTimer s' = throttleTimer s
                /\ timer_armed s' = timer_armed s
                /\ scene (av_graph s) `prefix_of` scene (av_graph s')
                /\ (one_avatar_each s -> one_avatar_each s')).
    { intros s1 Hpd Hc Ht Ha Hsc Hone.
      destruct (IH s1) as (s' & Hrun & Ht' & Ha' & Hsc' & Hone'); [|done|].
      - intros w Hw. rewrite Hpd. apply Hall. apply elem_of_cons. by right.
      - exists s'. split; [done|]. split; [congruence|]. split; [congruence|].
        split; [by etransitivity|]. auto. }
    destruct (decide (vis_id v ∈ imageTexture s)).
    + destruct (generateAvaPoint_fields (vis_id v)
                  (cur !! (index info * 2)) (cur !! (index info * 2 + 1)) s)
        as (Ht & Ha & _ & _ & _ & Hpd & Hc & Hsc).
      apply Hrest; [done|congruence|done|done|done|].
      intros Hone id. rewrite generateAvaPoint_count.
      specialize (Hone id). destruct (decide _); lia.
    + destruct (_ || _); [by apply Hrest|].
      destruct (negb _); by apply Hrest.
Qed.

Lemma stuck_step tan e s s' :
  throttleTimer s = true -> timer_armed s = false ->
  step tan e s = Done s' ->
  throttleTimer s' = true /\ timer_armed s' = false /\ requested s' = requested s.
Proof.
  intros Ht Ha. destruct e; cbn [step].
  - unfold loadImage. rewrite Ht. by intros [= <-].
  - unfold on_timer. rewrite Ha. by intros [= <-].
  - intros [= <-].
    destruct (generateAvaPoint_fields id x y
                (set_images ({[id]} ∪ imageTexture s) (imagePoint s)
                   (image_cleared s) (requested s) s)) as (-> & -> & -> & _).
    done.
  - by intros [= <-].
  - by intros [= <-].
Qed.

Lemma stuck_run tan es s :
  throttleTimer s = true -> timer_armed s = false ->
  exists s',
    run tan es s = Done s'
    /\ throttleTimer s' = true /\ timer_armed s' = false
    /\ requested s' = requested s.
Proof.
  revert s. induction es as [|e es IH]; intros s Ht Ha; cbn [run].
  - by exists s.
  - assert (Hstep : exists s1, step tan e s = Done s1).
    { destruct e; cbn [step]; try by eexists.
      unfold on_timer. rewrite Ha. by eexists. }
    destruct Hstep as [s1 He]. rewrite He. cbn [bind].
    destruct (stuck_step _ _ _ _ Ht Ha He) as (Ht1 & Ha1 & Hr1).
    destruct (IH _ Ht1 Ha1) as (s' & Hrun & ? & ? & ?).
    exists s'. split; [done|]. split; [done|]. split; [done|]. congruence.
Qed.

Local Open Scope Q_scope.

(** X20: the throttle of [loadImage] can stick.  When [loadImage] arms its
    timer and the camera is above 300 by the time the timer fires, the
    callback returns without clearing the handle; from then on, whatever
    happens, nothing throws, the handle stays set, no timer is armed again,
    and no download is ever started. *)
Theorem throttle_sticks (tan_half_fov : Q) (s : Avatars) (z : Q) :
  throttleTimer s = false -> 300 < z ->
  exists s1,
    run tan_half_fov [CallLoadImage; CameraTo z; TimerFires] s = Done s1
    /\ throttleTimer s1 = true /\ timer_armed s1 = false
    /\ requested s1 = requested s
    /\ scene (av_graph s1) = scene (av_graph s)
    /\ forall es, exists s2,
         run tan_half_fov es s1 = Done s2
         /\ throttleTimer s2 = true /\ timer_armed s2 = false
         /\ requested s2 = requested s.
Proof.
  intros Ht Hz. cbn [run step bind]. unfold loadImage. rewrite Ht.
  unfold on_timer.
  cbn [timer_armed set_timer set_av_graph av_graph camera zoom_to set_camera
       cam_z set_z throttleTimer].
  apply Qltb_lt in Hz. rewrite Hz. cbn [bind].
  eexists. split; [reflexivity|].
  cbn [throttleTimer timer_armed requested set_timer set_av_graph av_graph].
  split; [done|]. split; [done|]. split; [done|]. split; [done|].
  intros es.
  match goal with |- exists s2, run _ _ ?s1 = _ /\ _ =>
    destruct (stuck_run tan_half_fov es s1) as (s2 & Hrun & Ht2 & Ha2 & Hr2);
      [done|done|]
  end.
  exists s2. by repeat split.
Qed.

Lemma throttle_sticks_witness :
  exists s1,
    run (1 # 2) [CallLoadImage; CameraTo 301; TimerFires] hover_avatars = Done s1
    /\ throttleTimer s1 = true /\ timer_armed s1 = false
    /\ requested s1 = requested hover_avatars
    /\ scene (av_graph s1) = scene (av_graph hover_avatars)
    /\ forall es, exists s2,
         run (1 # 2) es s1 = Done s2
         /\ throttleTimer s2 = true /\ timer_armed s2 = false
         /\ requested s2 = requested hover_avatars.
Proof.
  apply (throttle_sticks (1 # 2) hover_avatars 301); [reflexivity|].
  vm_compute. reflexivity.
Defined.

(** X21: the timer releases the throttle otherwise.  On indexed data with
    positions, when the camera is at 300 or below as the armed timer fires,
    the callback returns and clears the handle, so that the next
    [loadImage] arms a timer again; it removes nothing from the scene and
    leaves no node with two avatars. *)
Theorem timer_releases_throttle (tan_half_fov : Q) (d : GraphData) (s : Avatars)
    (tgt cur : list Q) :
  preProcessData d = Some (processedData (av_graph s)) ->
  nodeCounts (perfInfo (av_graph s)) = length (nodes (processedData (av_graph s))) ->
  targetPositionStatus (av_graph s) = Some tgt ->
  currentPositionStatus (av_graph s) = Some cur ->
  timer_armed s = true ->
  cam_z (camera (av_graph s)) <= 300 ->
  exists s1,
    on_timer tan_half_fov s = Done s1
    /\ throttleTimer s1 = false /\ timer_armed s1 = false
    /\ timer_armed (loadImage s1) = true
    /\ scene (av_graph s) `prefix_of` scene (av_graph s1)
    /\ (one_avatar_each s -> one_avatar_each s1).
Proof.
  intros Hd Hn Htgt Hcur Ha Hz. unfold on_timer. rewrite Ha.
  apply Qltb_ge in Hz. rewrite Hz.
  destruct (getAllVisibleNodes tan_half_fov (av_graph s)) as [vs| | |] eqn:Hvs.
  2-4: exfalso; unfold getAllVisibleNodes in Hvs; rewrite Htgt, Hn in Hvs;
       destruct (visible_from_spec (getViewPortRect tan_half_fov (av_graph s))
                   (nodes (processedData (av_graph s))) tgt 0
                   (length (nodes (processedData (av_graph s)))))
         as (vs & Hrun & _); [simpl; lia|];
       destruct (length (nodes (processedData (av_graph s)))); congruence.
  cbn [bind].
  destruct (load_visible_Done vs (set_timer (throttleTimer s) false s) cur)
    as (s1 & Hrun & Ht1 & Ha1 & Hsc & Hone); [|done|].
  { intros v Hv. cbn [set_timer av_graph]. apply (indexed_ids d); [done|].
    unfold getAllVisibleNodes in Hvs.
    assert (Hsub : map vis_id vs `sublist_of` nodes (processedData (av_graph s))).
    { destruct (nodeCounts (perfInfo (av_graph s))).
      - injection Hvs as <-. apply sublist_nil_l.
      - rewrite Htgt in Hvs. apply visible_from_ids in Hvs as [Hs _].
        by rewrite drop_0 in Hs. }
    eapply elem_of_sublist; [|exact Hsub].
    change (map ?f ?l) with (f <$> l). apply list_elem_of_fmap. eauto. }
  rewrite Hrun. cbn [bind]. eexists. split; [reflexivity|].
  cbn [throttleTimer timer_armed set_timer av_graph].
  split; [done|]. split; [done|]. split; [done|]. split; [done|].
  intros H1. apply Hone in H1. exact H1.
Qed.

Local Close Scope Q_scope.

Lemma timer_releases_throttle_witness :
  exists s1,
    on_timer (1 # 2) (loadImage hover_avatars) = Done s1
    /\ throttleTimer s1 = false /\ timer_armed s1 = false
    /\ timer_armed (loadImage s1) = true
    /\ scene (av_graph (loadImage hover_avatars)) `prefix_of` scene (av_graph s1)
    /\ (one_avatar_each (loadImage hover_avatars) -> one_avatar_each s1).
Proof.
  apply (timer_releases_throttle (1 # 2) hover_data (loadImage hover_avatars)
           [0; 0; 10; 0; 20; 0]%Q [0; 0; 10; 0; 20; 0]%Q).
  - vm_compute. reflexivity.
  - reflexivity.
  - reflexivity.
  - reflexivity.
  - reflexivity.
  - vm_compute. discriminate.
Defined.

Lemma load_visible_inv vs s s' :
  load_visible vs s = Done s' ->
  scene (av_graph s) `prefix_of` scene (av_graph s')
  /\ highlighted (av_graph s') = highlighted (av_graph s)
  /\ (one_avatar_each s -> one_avatar_each s').
Proof.
  revert s. induction vs as [|v vs IH]; intros s; cbn [load_visible].
  - by intros [= <-].
  - destruct (nodeInfoMap _ !! vis_id v) as [info|]; [|done].
    destruct (currentPositionStatus (av_graph s)) as [cur|]; [|done].
    destruct (decide (vis_id v ∈ imageTexture s)).
    + intros (Hsc & Hh & Hone)%IH.
      destruct (generateAvaPoint_fields (vis_id v)
                  (cur !! (index info * 2)) (cur !! (index info * 2 + 1)) s)
        as (_ & _ & _ & _ & _ & _ & _ & Hsc0).
      split; [by etransitivity|]. split; [done|].
      intros H0. apply Hone. intros id. rewrite generateAvaPoint_count.
      specialize (H0 id). destruct (decide _); lia.
    + destruct (_ || _); [by intros ?%IH|].
      destruct (negb _); by intros ?%IH.
Qed.

Lemma step_inv tan e s s' :
  step tan e s = Done s' ->
  scene (av_graph s) `prefix_of` scene (av_graph s')
  /\ highlighted (av_graph s') = highlighted (av_graph s)
  /\ (one_avatar_each s -> one_avatar_each s').
Proof.
  destruct e; cbn [step].
  - unfold loadImage. intros [= <-]. by destruct (throttleTimer s).
  - unfold on_timer. destruct (timer_armed s); [|by intros [= <-]].
    destruct (Qltb _ _); [by intros [= <-]|].
    destruct (getAllVisibleNodes _ _) as [vs| | |]; [|done..]. cbn [bind].
    destruct (load_visible vs _) as [s1| | |] eqn:Hl; [|done..]. cbn [bind].
    intros [= <-]. by apply load_visible_inv in Hl.
  - intros [= <-].
    match goal with |- context [generateAvaPoint id x y ?s0] =>
      destruct (generateAvaPoint_fields id x y s0)
        as (_ & _ & _ & _ & _ & _ & _ & Hsc);
      pose proof (generateAvaPoint_count id x y s0) as Hcnt end.
    split; [done|]. split; [done|].
    intros H0 id'. rewrite Hcnt. specialize (H0 id').
    cbn [av_graph set_images]. destruct (decide _); lia.
  - by intros [= <-].
  - by intros [= <-].
Qed.

(** X22: whatever [loadImage], its timer, the downloads and the camera do,
    in whatever order, as long as nothing throws: nothing is removed from
    the scene, the highlighted id is not touched, and no node gets a second
    avatar. *)
Theorem avatars_never_double (tan_half_fov : Q) (es : list Event)
    (s s' : Avatars) :
  one_avatar_each s -> run tan_half_fov es s = Done s' ->
  one_avatar_each s'
  /\ scene (av_graph s) `prefix_of` scene (av_graph s')
  /\ highlighted (av_graph s') = highlighted (av_graph s).
Proof.
  revert s. induction es as [|e es IH]; intros s Hone; cbn [run].
  - by intros [= <-].
  - destruct (step tan_half_fov e s) as [s1| | |] eqn:He; [|done..]. cbn [bind].
    apply step_inv in He as (Hsc & Hh & H1).
    intros (? & ? & ?)%IH; [|by apply H1].
    split; [done|]. split; [by etransitivity|congruence].
Qed.

Lemma avatars_never_double_witness :
  exists s',
    run (1 # 2)
      [CallLoadImage; TimerFires; ImageLoaded "a" (Some 0%Q) (Some 0%Q);
       CallLoadImage; TimerFires; ImageLoaded "a" (Some 0%Q) (Some 0%Q)]
      hover_avatars = Done s'
    /\ one_avatar_each s'
    /\ scene (av_graph hover_avatars) `prefix_of` scene (av_graph s')
    /\ highlighted (av_graph s') = highlighted (av_graph hover_avatars).
Proof.
  eexists. split; [vm_compute; reflexivity|].
  apply (avatars_never_double (1 # 2)
           [CallLoadImage; TimerFires; ImageLoaded "a" (Some 0%Q) (Some 0%Q);
            CallLoadImage; TimerFires; ImageLoaded "a" (Some 0%Q) (Some 0%Q)]
           hover_avatars); [|vm_compute; reflexivity].
  intros id. vm_compute. lia.
Defined.

(** ** The pointer *)

Local Open Scope Q_scope.

(** X23: the pointer in normalised device coordinates.  For a chart of
    positive width and height, a pointer inside the rectangle of the
    container is sent by [mouseMoveHandler] and [updateHighLight] to a point
    of the square from -1 to 1: the left edge to -1 and the right edge to 1,
    the top edge to 1 and the bottom edge to -1.  The position
    [mouseOutHandler] parks the pointer at falls left of that square exactly
    when the chart is narrower than 19998 pixels, and below it exactly when
    the chart is lower than that. *)
Theorem pointer_normalised (clientX clientY rect_left rect_top width height : Q) :
  0 < width -> 0 < height ->
  rect_left <= clientX <= rect_left + width ->
  rect_top <= clientY <= rect_top + height ->
  exists nx ny px py,
    normalMouse width height
      (mouseMoveHandler clientX clientY rect_left rect_top width height)
    = Done (nx, ny)
    /\ nx == (clientX - rect_left) * 2 / width - 1
    /\ ny == 1 - (clientY - rect_top) * 2 / height
    /\ -1 <= nx <= 1 /\ -1 <= ny <= 1
    /\ normalMouse width height mouseOutHandler = Done (px, py)
    /\ (px < -1 <-> width < 19998)
    /\ (py < -1 <-> height < 19998).
Proof.
  intros Hw Hh [Hx1 Hx2] [Hy1 Hy2]. unfold normalMouse.
  assert (Hw0 : Qeq_bool width 0 = false).
  { destruct (Qeq_bool width 0) eqn:E; [|done]. apply Qeq_bool_iff in E. lra. }
  assert (Hh0 : Qeq_bool height 0 = false).
  { destruct (Qeq_bool height 0) eqn:E; [|done]. apply Qeq_bool_iff in E. lra. }
  rewrite Hw0, Hh0. cbn [orb mouseMoveHandler mouseOutHandler fst snd].
  do 4 eexists. split; [reflexivity|].
  assert (Hnx : (clientX - rect_left - width / 2) * 2 / width
                == (clientX - rect_left) * 2 / width - 1) by (field; lra).
  assert (Hny : (height - clientY + rect_top - height / 2) * 2 / height
                == 1 - (clientY - rect_top) * 2 / height) by (field; lra).
  split; [exact Hnx|]. split; [exact Hny|].
  assert (Hdx : 0 <= (clientX - rect_left) * 2 / width <= 2).
  { split.
    - apply Qle_shift_div_l; [done|]. lra.
    - apply Qle_shift_div_r; [done|]. lra. }
  assert (Hdy : 0 <= (clientY - rect_top) * 2 / height <= 2).
  { split.
    - apply Qle_shift_div_l; [done|]. lra.
    - apply Qle_shift_div_r; [done|]. lra. }
  split; [rewrite Hnx; lra|]. split; [rewrite Hny; lra|].
  split; [reflexivity|]. split.
  - split.
    + intros H. destruct (Qlt_le_dec width 19998) as [|Hge]; [done|]. exfalso.
      assert (-1 <= -9999 * 2 / width) by (apply Qle_shift_div_l; [done|lra]). lra.
    + intros H. apply Qlt_shift_div_r; [done|lra].
  - split.
    + intros H. destruct (Qlt_le_dec height 19998) as [|Hge]; [done|]. exfalso.
      assert (-1 <= -9999 * 2 / height) by (apply Qle_shift_div_l; [done|lra]). lra.
    + intros H. apply Qlt_shift_div_r; [done|lra].
Qed.

Lemma pointer_normalised_witness :
  exists nx ny px py,
    normalMouse 400 400 (mouseMoveHandler 110 20 10 20 400 400) = Done (nx, ny)
    /\ nx == (110 - 10) * 2 / 400 - 1
    /\ ny == 1 - (20 - 20) * 2 / 400
    /\ -1 <= nx <= 1 /\ -1 <= ny <= 1
    /\ normalMouse 400 400 mouseOutHandler = Done (px, py)
    /\ (px < -1 <-> 400 < 19998)
    /\ (py < -1 <-> 400 < 19998).
Proof.
  apply (pointer_normalised 110 20 10 20 400 400);
    try reflexivity; split; vm_compute; discriminate.
Defined.

Local Close Scope Q_scope.

Lemma highlight_sets_id i g g1 : highlight i g = Done g1 -> highlighted g1 = Some i.
Proof.
  destruct (decide (highlighted g = Some i)) as [He|Hne].
  - unfold highlight. rewrite decide_True by done. by intros [= <-].
  - intros H. by apply highlight_only_adds in H as [? _].
Qed.

Lemma count_named_unhighlight n g :
  count_named n (scene (unhighlight g))
  = if decide (n ∈ unhighlight_names) then pred (count_named n (scene g))
    else count_named n (scene g).
Proof.
  unfold unhighlight. cbn [scene set_highlight]. unfold unhighlight_names.
  destruct (decide (n = "hlArrows")) as [->|H4].
  { rewrite count_named_remove, !count_named_remove_other by done.
    by rewrite decide_True by (rewrite !elem_of_cons; auto). }
  rewrite count_named_remove_other by done.
  destruct (decide (n = "hlText")) as [->|H3].
  { rewrite count_named_remove, !count_named_remove_other by done.
    by rewrite decide_True by (rewrite !elem_of_cons; auto). }
  rewrite count_named_remove_other by done.
  destruct (decide (n = "hlLines")) as [->|H2].
  { rewrite count_named_remove, !count_named_remove_other by done.
    by rewrite decide_True by (rewrite !elem_of_cons; auto). }
  rewrite count_named_remove_other by done.
  destruct (decide (n = "hlNodes")) as [->|H1].
  { rewrite count_named_remove.
    by rewrite decide_True by (rewrite !elem_of_cons; auto). }
  rewrite count_named_remove_other by done.
  rewrite decide_False; [done|].
  rewrite !not_elem_of_cons. repeat split; try done. apply not_elem_of_nil.
Qed.

(** X24: frames of hovering.  While the pointer rests on one node, the
    first frame highlights it and every later frame leaves the graph as it
    is.  While the pointer rests on nothing, and not on the table, every
    frame removes one more child of each of the four names that
    [unhighlight] looks for, and the children of every other name stay. *)
Theorem hover_frames (hits : list Intersection) (g : Graph) (k : nat) :
  (forall target rest id g1,
     filter (fun e => String.eqb (hit_type e) "Points"
                      && negb (String.prefix "hl" (hit_name e)) = true) hits
     = target :: rest ->
     hit_name target = "basePoints" ->
     nodes (processedData g) !! hit_index target = Some id -> id <> "" ->
     highlight id g = Done g1 ->
     forall mouseOnTable, frames (S k) hits mouseOnTable g = Done g1)
  /\ (filter (fun e => String.eqb (hit_type e) "Points"
                       && negb (String.prefix "hl" (hit_name e)) = true) hits = [] ->
      exists gk,
        frames k hits false g = Done gk
        /\ highlighted gk = match k with O => highlighted g | S _ => None end
        /\ forall n, count_named n (scene gk)
             = if decide (n ∈ unhighlight_names) then count_named n (scene g) - k
               else count_named n (scene g)).
Proof.
  split.
  - intros target rest id g1 Hf Hname Hid Hne Hh mouseOnTable.
    assert (Hframe : forall g',
              processedData g' = processedData g ->
              updateHighLight hits mouseOnTable g' = highlight id g').
    { intros g' Hpd. unfold updateHighLight. rewrite Hf, Hname.
      cbn [String.eqb Ascii.eqb Bool.eqb andb]. rewrite Hpd, Hid. cbn [bind].
      destruct (String.eqb_spec id ""); [done|done]. }
    assert (Hpd1 : processedData g1 = processedData g).
    { destruct (decide (highlighted g = Some id)) as [He|Hn].
      - unfold highlight in Hh. rewrite decide_True in Hh by done. congruence.
      - unfold highlight in Hh. rewrite decide_False in Hh by done.
        unfold addHighLight in Hh.
        destruct (find _ _); [|done].
        destruct (currentPositionStatus g); [|done].
        destruct (all_indexed _ _); [|done].
        cbn [bind] in Hh. by injection Hh as <-. }
    cbn [frames]. rewrite Hframe, Hh by done. cbn [bind].
    apply highlight_sets_id in Hh as Hid1.
    clear Hh. induction k as [|k IH]; [done|].
    cbn [frames]. rewrite Hframe by done.
    unfold highlight at 1. rewrite decide_True by done. cbn [bind]. exact IH.
  - intros Hf. revert g. induction k as [|k IH]; intros g.
    + exists g. split; [done|]. split; [done|].
      intros n. destruct (decide _); [lia|done].
    + cbn [frames]. unfold updateHighLight at 1. rewrite Hf. cbn [bind].
      destruct (IH (unhighlight g)) as (gk & Hrun & Hh & Hcnt).
      exists gk. split; [done|]. split.
      * rewrite Hh. by destruct k.
      * intros n. rewrite Hcnt, count_named_unhighlight.
        destruct (decide _); [lia|done].
Qed.

Lemma hover_frames_witness :
  exists g1,
    highlight "a" hover_graph = Done g1
    /\ frames 3 [hit_first_point] false hover_graph = Done g1.
Proof.
  eexists. split; [reflexivity|].
  eapply (proj1 (hover_frames [hit_first_point] hover_graph 2));
    [reflexivity|reflexivity|reflexivity|discriminate|reflexivity].
Defined.
